(** * fake_jobs.py: the two-phase job scraper, embedded and verified

    The development follows the layout of [src/fake_jobs.py]:

    - [Py]: the Python string and list primitives the scraper calls
      ([str.strip], [str.lower], [str.startswith], [str.split], indexing);
    - [Soup]: the part of the BeautifulSoup document model the scraper
      touches ([select], [select_one], [find_next], [get_text], attribute
      access);
    - [Eff]: a state-and-exception monad for the browser session, with the
      [try]/[except]/[finally] combinators and tenacity's retry loop;
    - the scraper itself: [parse_jobs_from_page], [parse_job_details],
      [fetch_detail_html], the pagination and enrichment loops of [main]
      and the cleaning of the table;
    - [Xl] and [style_excel]: the worksheet as openpyxl shows it to the
      program, and the styling of the saved table;
    - a small site to run it on, and the theorems.

    Python strings are sequences of code points; here a [string] holds the
    code points below 256, on which [str.isspace] and [str.lower] are
    written out in full.  Log messages are left out: they carry no data.
    The writing of the table to the file by pandas is not part of the
    model: [style_excel] starts from the worksheet it loads. *)

From stdpp Require Import base option list gmap strings.
From Stdlib Require Import Ascii ZArith Lia.

Open Scope string_scope.
Open Scope list_scope.
Set Warnings "-register-all".

(** ** Exceptions and results *)

(** The exceptions that reach the scraper's [except] clauses.  [pwTimeout]
    is Playwright's [TimeoutError]; [ValueError] is what [urljoin] raises
    on a URL it cannot split, [ParserRejectedMarkup] what bs4 raises when
    the parser gives up on the markup; every constructor is a subclass of
    Python's [Exception]. *)
Inductive exn : Type :=
| pwTimeout (msg : string)
| PlaywrightError (msg : string)
| KeyError (key : string)
| IndexError
| ValueError (msg : string)
| ParserRejectedMarkup (msg : string).

Inductive result (A : Type) : Type :=
| Ok (a : A)
| Raise (e : exn).
Arguments Ok {A} a.
Arguments Raise {A} e.

Definition rbind {A B : Type} (r : result A) (k : A -> result B) : result B :=
  match r with
  | Ok a => k a
  | Raise e => Raise e
  end.

Definition is_Ok {A : Type} (r : result A) : bool :=
  match r with Ok _ => true | Raise _ => false end.

(** The value of a result that is one (else [d]), and the exception of a
    result that raised. *)
Definition value_of {A : Type} (d : A) (r : result A) : A :=
  match r with Ok a => a | Raise _ => d end.

Definition error_of {A : Type} (r : result A) : exn :=
  match r with Ok _ => IndexError | Raise e => e end.

Definition is_Ok_Some {A : Type} (r : result (option A)) : bool :=
  match r with Ok (Some _) => true | _ => false end.

(** ** Python strings *)

Module Py.

(** [str.isspace] on one code point below 256: TAB..CR, FS..US, SPACE,
    NEL (0x85) and NBSP (0xA0). *)
Definition isspace (c : ascii) : bool :=
  let n := nat_of_ascii c in
  (((9 <=? n) && (n <=? 13)) || ((28 <=? n) && (n <=? 32))
   || (n =? 133) || (n =? 160))%nat.

(** [str.lower] on one code point below 256: A..Z and the Latin-1 capitals
    0xC0..0xDE (the multiplication sign 0xD7 apart) move up by 32. *)
Definition lower_char (c : ascii) : ascii :=
  let n := nat_of_ascii c in
  if (((65 <=? n) && (n <=? 90))
      || ((192 <=? n) && (n <=? 222) && negb (n =? 215)))%nat
  then ascii_of_nat (n + 32) else c.

Fixpoint lower (s : string) : string :=
  match s with
  | EmptyString => EmptyString
  | String c s' => String (lower_char c) (lower s')
  end.

Definition is_empty (s : string) : bool :=
  match s with EmptyString => true | String _ _ => false end.

Fixpoint lstrip (s : string) : string :=
  match s with
  | EmptyString => EmptyString
  | String c s' => if isspace c then lstrip s' else s
  end.

Fixpoint rstrip (s : string) : string :=
  match s with
  | EmptyString => EmptyString
  | String c s' =>
      let r := rstrip s' in
      if isspace c && is_empty r then EmptyString else String c r
  end.

(** [s.strip()] *)
Definition strip (s : string) : string := lstrip (rstrip s).

(** [s.startswith(p)] *)
Definition startswith (s p : string) : bool := String.prefix p s.

(** [s.split(sep, 1)] for a one-character separator: the text before the
    first [sep] and the text after it, or [s] alone when [sep] does not
    occur. *)
Fixpoint split1 (sep : ascii) (s : string) : list string :=
  match s with
  | EmptyString => [EmptyString]
  | String c s' =>
      if Ascii.eqb c sep then [EmptyString; s']
      else match split1 sep s' with
           | h :: t => String c h :: t
           | [] => [String c EmptyString]
           end
  end.

(** [l[i]]: an index out of range raises [IndexError]. *)
Definition getitem {A : Type} (l : list A) (i : nat) : result A :=
  match l !! i with
  | Some a => Ok a
  | None => Raise IndexError
  end.

(** [sep.join(l)] *)
Fixpoint join (sep : string) (l : list string) : string :=
  match l with
  | [] => EmptyString
  | [s] => s
  | s :: l' => s +:+ sep +:+ join sep l'
  end.

(** The maximal runs of non-whitespace characters of [s], in order
    (the regular expression [\S+] that bs4 splits [class] and [rel] on). *)
Fixpoint tokens_go (cur : string) (s : string) : list string :=
  match s with
  | EmptyString => if is_empty cur then [] else [cur]
  | String c s' =>
      if isspace c
      then (if is_empty cur then tokens_go EmptyString s'
            else cur :: tokens_go EmptyString s')
      else tokens_go (cur +:+ String c EmptyString) s'
  end.

Definition tokens (s : string) : list string := tokens_go EmptyString s.

(** [s[n:]] *)
Fixpoint slice_from (n : nat) (s : string) : string :=
  match n, s with
  | 0, _ => s
  | S n', String _ s' => slice_from n' s'
  | S _, EmptyString => EmptyString
  end.

(** Python truthiness of a string: [if s] holds for a non-empty [s]. *)
Definition truthy (s : string) : bool := negb (is_empty s).

End Py.

(** ** The BeautifulSoup document model *)

Module Soup.

(** A parsed document is a forest of strings and tags; a tag's attributes
    are the dict bs4 keeps in [tag.attrs].  bs4 gives every string a
    class.  [NavigableString] is a string of text (the classes
    [NavigableString] and [CData]).  [SpecialString] is a string of any
    other class: a [Comment], a [Declaration], a [Doctype], a
    [ProcessingInstruction], and the [Script], [Stylesheet] and
    [TemplateString] strings the parser makes inside [script], [style]
    and [template] tags. *)
Inductive node : Type :=
| NavigableString (text : string)
| SpecialString (text : string)
| Tag (name : string) (attrs : gmap string string) (contents : list node).

(** What a selector reads off a tag: its name and its attributes. *)
Definition head : Type := string * gmap string string.

(** A tag as the scraper holds it: bs4's [Tag] object reaches its parents
    and its place in the document through pointers; here it carries its
    ancestors (nearest first) and its index in document order. *)
Record element : Type := {
  el_name : string;
  el_attrs : gmap string string;
  el_contents : list node;
  el_parents : list head;
  el_index : nat
}.

(** The tags of a subtree in document order, [n] itself first. *)
Fixpoint walk (parents : list head) (pos : nat) (n : node) {struct n}
  : list element :=
  match n with
  | NavigableString _ | SpecialString _ => []
  | Tag nm at' cs =>
      {| el_name := nm; el_attrs := at'; el_contents := cs;
         el_parents := parents; el_index := pos |}
      :: (fix go (p : nat) (l : list node) {struct l} : list element :=
            match l with
            | [] => []
            | c :: l' =>
                let es := walk ((nm, at') :: parents) p c in
                es ++ go (p + length es) l'
            end) (S pos) cs
  end.

Fixpoint walk_all (parents : list head) (pos : nat) (l : list node)
  : list element :=
  match l with
  | [] => []
  | c :: l' =>
      let es := walk parents pos c in
      es ++ walk_all parents (pos + length es) l'
  end.

(** [tag.descendants], tags only. *)
Definition descendants (e : element) : list element :=
  walk_all ((el_name e, el_attrs e) :: el_parents e) (S (el_index e))
    (el_contents e).

(** The [BeautifulSoup] object over a parsed forest: a tag named
    [[document]] above every other. *)
Definition document (forest : list node) : element :=
  {| el_name := "[document]"; el_attrs := ∅; el_contents := forest;
     el_parents := []; el_index := 0 |}.

(** *** Selectors *)

(** A compound selector [name#id.class1.class2[attr][attr=value]]. *)
Record compound : Type := {
  sel_name : string;
  sel_id : option string;
  sel_classes : list string;
  sel_attrs : list (string * option string)
}.

(** A selector is a chain of compounds joined by the descendant
    combinator, outermost first. *)
Definition selector : Type := list compound.

(** bs4 keeps the values of these attributes as lists of tokens. *)
Definition cdata_list_attributes : list string :=
  ["class"; "accesskey"; "dropzone"; "rel"; "rev"].

(** The value a selector compares: token lists are joined by one space. *)
Definition attr_value (at' : gmap string string) (k : string)
  : option string :=
  (fun v => if bool_decide (k ∈ cdata_list_attributes)
            then Py.join " " (Py.tokens v) else v) <$> at' !! k.

Definition match_attr (at' : gmap string string)
  (kv : string * option string) : bool :=
  match attr_value at' kv.1, kv.2 with
  | None, _ => false
  | Some _, None => true
  | Some x, Some y => String.eqb x y
  end.

Definition matches_compound (c : compound) (h : head) : bool :=
  String.eqb h.1 (sel_name c)
  && match sel_id c with
     | None => true
     | Some i => String.eqb (default "" (h.2 !! "id")) i
     end
  && forallb (fun cl => bool_decide (cl ∈ Py.tokens (default "" (h.2 !! "class"))))
       (sel_classes c)
  && forallb (match_attr h.2) (sel_attrs c).

(** [outer] (nearest compound first) is matched by a chain of ancestors. *)
Fixpoint has_ancestors (outer : list compound) (parents : list head) : bool :=
  match outer, parents with
  | [], _ => true
  | _ :: _, [] => false
  | c :: cs, p :: ps =>
      (matches_compound c p && has_ancestors cs ps) || has_ancestors outer ps
  end.

Definition matches (sel : selector) (e : element) : bool :=
  match rev sel with
  | [] => false
  | c :: outer =>
      matches_compound c (el_name e, el_attrs e)
      && has_ancestors outer (el_parents e)
  end.

(** [scope.select(sel)] and [scope.select_one(sel)]: the descendants of
    [scope] that match, in document order; the first of them or [None]. *)
Definition select (sel : selector) (scope : element) : list element :=
  filter (fun e => matches sel e = true) (descendants scope).

Definition select_one (sel : selector) (scope : element) : option element :=
  List.head (select sel scope).

(** *** Text and attributes *)

(** The strings of text of a subtree, in document order. *)
Fixpoint strings (n : node) : list string :=
  match n with
  | NavigableString s => [s]
  | SpecialString _ => []
  | Tag _ _ cs =>
      (fix go (l : list node) : list string :=
         match l with
         | [] => []
         | c :: l' => strings c ++ go l'
         end) cs
  end.

Definition all_strings (e : element) : list string :=
  flat_map strings (el_contents e).

(** [tag.get_text(separator, strip=...)] on a tag whose strings of
    interest are the strings of text, which is every tag but [script],
    [style] and [template] (the scraper reads the text of [h2], [h3] and
    [p] tags): the special strings are left out; with [strip] every string
    is stripped and the empty ones are left out. *)
Definition get_text (separator : string) (strip : bool) (e : element)
  : string :=
  Py.join separator
    (if strip
     then filter (fun s => Py.truthy s = true) (Py.strip <$> all_strings e)
     else all_strings e).

(** [tag.string]: the text of a tag whose only child is a string, of any
    class, or a tag with such a [string]. *)
Fixpoint node_string (n : node) : option string :=
  match n with
  | NavigableString s | SpecialString s => Some s
  | Tag _ _ [c] => node_string c
  | Tag _ _ _ => None
  end.

Definition string_of (e : element) : option string :=
  match el_contents e with
  | [c] => node_string c
  | _ => None
  end.

(** [tag.has_attr(k)] and [tag[k]]; the latter raises [KeyError] on a
    missing attribute. *)
Definition has_attr (e : element) (k : string) : bool :=
  bool_decide (is_Some (el_attrs e !! k)).

Definition getitem (e : element) (k : string) : result string :=
  match el_attrs e !! k with
  | Some v => Ok v
  | None => Raise (KeyError k)
  end.

(** [tag.find_next(name, string=text)]: the first tag after [e] in
    document order (its own descendants included) named [name] whose
    [string] is [text]. *)
Definition find_next (soup : element) (e : element) (name text : string)
  : option element :=
  List.head
    (filter (fun x => String.eqb (el_name x) name = true
                      ∧ string_of x = Some text)
       (drop (el_index e) (descendants soup))).

End Soup.

(** ** The browser session as a state-and-exception monad *)

Module Eff.

(** What the program does to the outside world, in the order it does it. *)
Inductive event : Type :=
| NewPage
| Goto (url : string) (timeout_ms : Z)
| Content (url : string)
| ClosePage
| Sleep (ms : Z)
| Wait (seconds : Z)
| CloseContext
| CloseBrowser.

#[export] Instance event_eq_dec : EqDecision event.
Proof. solve_decision. Defined.

(** The run so far; its length is the logical time of the next call. *)
Definition world : Type := list event.

(** The outside world: whether each browser call, made at a given time,
    succeeds.  [None] is success for the calls that return nothing. *)
Record browser : Type := {
  new_page_outcome : nat -> option exn;
  goto_outcome : nat -> string -> option exn;
  content_outcome : nat -> string -> result string;
  close_outcome : nat -> option exn
}.

(** A computation runs from a world to a result and a later world; an
    exception keeps the effects done before it was raised. *)
Definition M (A : Type) : Type := world -> result A * world.

Definition ret {A : Type} (a : A) : M A := fun w => (Ok a, w).

Definition raise {A : Type} (e : exn) : M A := fun w => (Raise e, w).

Definition bind {A B : Type} (m : M A) (k : A -> M B) : M B :=
  fun w =>
    match m w with
    | (Ok a, w') => k a w'
    | (Raise e, w') => (Raise e, w')
    end.

#[export] Instance M_ret : MRet M := @ret.
#[export] Instance M_bind : MBind M := fun A B k m => bind m k.

(** A pure call that may raise, run inside a computation. *)
Definition lift {A : Type} (r : result A) : M A := fun w => (r, w).

(** [try: m except Exception as e: handler(e)] *)
Definition try_except {A : Type} (m : M A) (handler : exn -> M A) : M A :=
  fun w =>
    match m w with
    | (Ok a, w') => (Ok a, w')
    | (Raise e, w') => handler e w'
    end.

(** [try: m finally: cleanup]: [cleanup] always runs; an exception it
    raises replaces the outcome of [m]. *)
Definition try_finally {A : Type} (m : M A) (cleanup : M unit) : M A :=
  fun w =>
    match m w with
    | (r, w') =>
        match cleanup w' with
        | (Ok _, w'') => (r, w'')
        | (Raise e, w'') => (Raise e, w'')
        end
    end.

Definition emit (ev : event) (outcome : nat -> option exn) : M unit :=
  fun w =>
    (match outcome (List.length w) with
     | None => Ok tt
     | Some e => Raise e
     end, w ++ [ev]).

Section Calls.
Variable b : browser.

(** [await context.new_page()] *)
Definition new_page : M unit := emit NewPage (new_page_outcome b).

(** [await page.goto(url, timeout=..., wait_until=domcontentloaded)] *)
Definition goto (url : string) (timeout_ms : Z) : M unit :=
  emit (Goto url timeout_ms) (fun t => goto_outcome b t url).

(** [await page.content()] on the page showing [url] *)
Definition content (url : string) : M string :=
  fun w => (content_outcome b (List.length w) url, w ++ [Content url]).

(** [await page.close()] *)
Definition close_page : M unit := emit ClosePage (close_outcome b).

(** [await context.close()] and [await browser.close()] *)
Definition close_context : M unit := emit CloseContext (close_outcome b).
Definition close_browser : M unit := emit CloseBrowser (close_outcome b).
End Calls.

(** [await asyncio.sleep(ms / 1000)] *)
Definition sleep (ms : Z) : M unit := emit (Sleep ms) (fun _ => None).

(** *** tenacity *)

(** [wait_exponential(multiplier, min, max)]: the delay, in seconds, after
    the failed attempt number [attempt_number] (counted from 1), as
    tenacity computes it with its default base 2:
    [max(max(0, min), min(multiplier * 2 ** (attempt_number - 1), max))]. *)
Definition wait_exponential (multiplier min max : Z) (attempt_number : nat)
  : Z :=
  Z.max (Z.max 0 min)
    (Z.min (multiplier * 2 ^ (Z.of_nat attempt_number - 1)) max).

(** The retry loop of [@retry(stop=stop_after_attempt(n), wait=...,
    retry=retry_if_exception_type(Exception), reraise=True)], seen from
    attempt [attempt_number] with [remaining] more attempts allowed after
    it: a result is returned, an exception is followed by the wait and the
    next attempt, and the exception of the last attempt is raised again. *)
Fixpoint retrying {A : Type} (remaining attempt_number : nat)
  (wait : nat -> Z) (f : M A) : M A :=
  fun w =>
    match f w with
    | (Ok a, w') => (Ok a, w')
    | (Raise e, w') =>
        match remaining with
        | 0 => (Raise e, w')
        | S r =>
            retrying r (S attempt_number) wait f
              (w' ++ [Wait (wait attempt_number)])
        end
    end.

Definition retry {A : Type} (stop_after_attempt : nat) (wait : nat -> Z)
  (f : M A) : M A :=
  retrying (stop_after_attempt - 1) 1 wait f.

End Eff.

(** ** The scraper *)

Import Eff.

(** *** CONFIG *)

Definition BASE_URL : string := "https://realpython.github.io/fake-jobs/".
Definition NAV_TIMEOUT_MS : Z := 15000.
Definition DETAIL_TIMEOUT_MS : Z := 5000.
Definition RETRY_ATTEMPTS : nat := 3.

(** The selectors of the source, parsed. *)
Definition simple (name : string) (classes : list string) : Soup.compound :=
  {| Soup.sel_name := name; Soup.sel_id := None;
     Soup.sel_classes := classes; Soup.sel_attrs := [] |}.

(** [div.card-content] *)
Definition sel_card : Soup.selector := [simple "div" ["card-content"]].
(** [h2.title.is-5] *)
Definition sel_title : Soup.selector := [simple "h2" ["title"; "is-5"]].
(** [h3.subtitle.is-6.company] *)
Definition sel_company : Soup.selector :=
  [simple "h3" ["subtitle"; "is-6"; "company"]].
(** [p time[datetime]] *)
Definition sel_date : Soup.selector :=
  [simple "p" [];
   {| Soup.sel_name := "time"; Soup.sel_id := None; Soup.sel_classes := [];
      Soup.sel_attrs := [("datetime", None)] |}].
(** [figure.image.is-48x48 img] *)
Definition sel_logo : Soup.selector :=
  [simple "figure" ["image"; "is-48x48"]; simple "img" []].
(** [p#location] *)
Definition sel_location : Soup.selector :=
  [{| Soup.sel_name := "p"; Soup.sel_id := Some "location";
      Soup.sel_classes := []; Soup.sel_attrs := [] |}].
(** [div.box p] *)
Definition sel_description : Soup.selector :=
  [simple "div" ["box"]; simple "p" []].
(** [a.pagination-next], [a.next] and [a[rel=next]], in the order the
    source tries them. *)
Definition sel_pagination_next : Soup.selector :=
  [simple "a" ["pagination-next"]].
Definition sel_next : Soup.selector := [simple "a" ["next"]].
Definition sel_rel_next : Soup.selector :=
  [{| Soup.sel_name := "a"; Soup.sel_id := None; Soup.sel_classes := [];
      Soup.sel_attrs := [("rel", Some "next")] |}].

(** The columns of the final table, in order. *)
Definition COLUMNS : list string :=
  ["Job Title"; "Company Name"; "Location"; "Date Posted";
   "Logo URL"; "Job Detail URL"; "Job Description"].

(** [d.get(k, empty)] on a dict of strings. *)
Definition get (d : gmap string string) (k : string) : string :=
  default "" (d !! k).

(** A table: rows of cells, one cell per column; [None] is a missing
    value. *)
Abbreviation DataFrame := (list (list (option string))).

Section Scraper.
(** The HTML parser behind [BeautifulSoup(html, parser)] and
    [urllib.parse.urljoin] are libraries outside the program.  Either may
    raise: the parser on markup it rejects, [urljoin] on a URL it cannot
    split. *)
Variable html_parser : string -> result (list Soup.node).
Variable urljoin : string -> string -> result string.

Definition BeautifulSoup (html : string) : result Soup.element :=
  rbind (html_parser html) (fun forest => Ok (Soup.document forest)).

(** *** HELPERS / PARSERS *)

(** [el.get_text(strip=True) if el else empty] *)
Definition text_or_empty (el : option Soup.element) : string :=
  match el with
  | Some e => Soup.get_text "" true e
  | None => ""
  end.

(** [el[k].strip() if el and el.has_attr(k) else empty] *)
Definition attr_or_empty (el : option Soup.element) (k : string)
  : result string :=
  match el with
  | Some e =>
      if Soup.has_attr e k
      then rbind (Soup.getitem e k) (fun v => Ok (Py.strip v))
      else Ok ""
  | None => Ok ""
  end.

(** The body of the loop over the cards. *)
Definition parse_card (soup card : Soup.element)
  : result (gmap string string) :=
  let title_el := Soup.select_one sel_title card in
  let company_el := Soup.select_one sel_company card in
  let date_el := Soup.select_one sel_date card in
  let logo_el := Soup.select_one sel_logo card in
  let link_el := Soup.find_next soup card "a" "Apply" in
  let title := text_or_empty title_el in
  let company := text_or_empty company_el in
  rbind (attr_or_empty date_el "datetime") (fun date_posted =>
  rbind (attr_or_empty logo_el "src") (fun logo =>
  rbind (attr_or_empty link_el "href") (fun detail_href =>
  rbind (if Py.truthy detail_href then urljoin BASE_URL detail_href
         else Ok "") (fun detail_url =>
  rbind (if Py.truthy logo then urljoin BASE_URL logo else Ok "")
    (fun logo_url =>
  Ok (<["Job Title" := title]>
      (<["Company Name" := company]>
      (<["Job Detail URL" := detail_url]>
      (<["Date Posted" := date_posted]>
      (<["Logo URL" := logo_url]>
       ∅)))))))))).

Fixpoint parse_cards (soup : Soup.element) (cards : list Soup.element)
  (jobs : list (gmap string string)) : result (list (gmap string string)) :=
  match cards with
  | [] => Ok jobs
  | card :: rest =>
      rbind (parse_card soup card) (fun job =>
      parse_cards soup rest (jobs ++ [job]))
  end.

Definition parse_jobs_from_page (html : string)
  : result (list (gmap string string)) :=
  rbind (BeautifulSoup html) (fun soup =>
  let cards := Soup.select sel_card soup in
  parse_cards soup cards []).

Definition no_details : gmap string string :=
  <["Location" := ""]> (<["Job Description" := ""]> ∅).

(** [location.lower().startswith(label)] then
    [location.split(colon, 1)[1].strip()] *)
Definition strip_label (location : string) : result string :=
  if Py.startswith (Py.lower location) "location:"
  then rbind (Py.getitem (Py.split1 ":" location) 1)
         (fun rest => Ok (Py.strip rest))
  else Ok location.

Definition parse_job_details (html : option string)
  : result (gmap string string) :=
  match html with
  | None => Ok no_details
  | Some text =>
      if negb (Py.truthy text) then Ok no_details
      else
        rbind (BeautifulSoup text) (fun soup =>
        let location_el := Soup.select_one sel_location soup in
        let desc_el := Soup.select_one sel_description soup in
        let location :=
          match location_el with
          | Some e => Soup.get_text " " true e
          | None => ""
          end in
        rbind (strip_label location) (fun location =>
        let description :=
          match desc_el with
          | Some e => Soup.get_text " " true e
          | None => ""
          end in
        Ok (<["Location" := location]>
            (<["Job Description" := description]> ∅))))
  end.

(** *** DETAIL FETCH (with retries) *)

Variable b : browser.

(** The body of [fetch_detail_html], one attempt. *)
Definition fetch_detail_html_attempt (url : string) : M (option string) :=
  if negb (Py.truthy url) then mret None
  else
    _ ← new_page b;
    try_finally
      (_ ← goto b url DETAIL_TIMEOUT_MS;
       _ ← sleep 100;
       html ← content b url;
       mret (Some html))
      (try_except (close_page b) (fun _ => mret tt)).

Definition fetch_detail_html (url : string) : M (option string) :=
  retry RETRY_ATTEMPTS (wait_exponential 1 1 5)
    (fetch_detail_html_attempt url).

(** *** MAIN SCRAPER (pagination, preserve exact order) *)

(** The variables of the pagination loop. *)
Record walker : Type := {
  next_page_url : option string;
  page_index : nat;
  all_jobs : list (gmap string string)
}.

(** How one pass through the loop body ends: at the loop test again, or
    out of the loop by [break]. *)
Inductive flow : Type :=
| Continue (st : walker)
| Break (st : walker).

(** [x or y] on values that are [None] or a tag (a tag is always true). *)
Definition py_or {A : Type} (x y : option A) : option A :=
  match x with
  | Some _ => x
  | None => y
  end.

(** The next-page link of a list page. *)
Definition next_link (soup : Soup.element) : option Soup.element :=
  py_or (Soup.select_one sel_pagination_next soup)
    (py_or (Soup.select_one sel_next soup)
       (Soup.select_one sel_rel_next soup)).

(** [next_page_url] as the end of the loop body sets it. *)
Definition next_url (soup : Soup.element) : result (option string) :=
  match next_link soup with
  | Some link =>
      if Soup.has_attr link "href"
      then rbind (Soup.getitem link "href") (fun href =>
           rbind (urljoin BASE_URL href) (fun url => Ok (Some url)))
      else Ok None
  | None => Ok None
  end.

(** One pass through the body of [while next_page_url]. *)
Definition page_body (st : walker) (url : string) : M flow :=
  loaded ← try_except (_ ← goto b url NAV_TIMEOUT_MS; mret true)
             (fun e =>
                match e with
                | pwTimeout _ => mret false
                | _ => mret false
                end);
  if negb loaded then mret (Break st)
  else
    html ← content b url;
    jobs_on_page ← lift (parse_jobs_from_page html);
    let collected := all_jobs st ++ jobs_on_page in
    soup ← lift (BeautifulSoup html);
    next ← lift (next_url soup);
    match next with
    | Some target =>
        _ ← sleep 200;
        mret (Continue {| next_page_url := Some target;
                          page_index := S (page_index st);
                          all_jobs := collected |})
    | None =>
        mret (Continue {| next_page_url := None;
                          page_index := page_index st;
                          all_jobs := collected |})
    end.

(** The loop, with [fuel] bounding the number of loop tests; [None] when
    the bound is reached with the loop still running. *)
Fixpoint pagination (fuel : nat) (st : walker) : M (option walker) :=
  match fuel with
  | 0 => mret None
  | S fuel' =>
      match next_page_url st with
      | Some url =>
          if Py.truthy url
          then
            fl ← page_body st url;
            match fl with
            | Continue st' => pagination fuel' st'
            | Break st' => mret (Some st')
            end
          else mret (Some st)
      | None => mret (Some st)
      end
  end.

(** The body of the loop over [all_jobs]. *)
Definition fetch_details (detail_url : string) : M (gmap string string) :=
  if Py.truthy detail_url
  then
    try_except
      (html ← fetch_detail_html detail_url;
       lift (parse_job_details html))
      (fun e =>
         match e with
         | pwTimeout _ => mret no_details
         | _ => mret no_details
         end)
  else mret no_details.

Definition cleaned (job details : gmap string string) (detail_url : string)
  : gmap string string :=
  <["Job Title" := Py.strip (get job "Job Title")]>
  (<["Company Name" := Py.strip (get job "Company Name")]>
  (<["Location" := Py.strip (get details "Location")]>
  (<["Date Posted" := Py.strip (get job "Date Posted")]>
  (<["Logo URL" := Py.strip (get job "Logo URL")]>
  (<["Job Detail URL" := Py.strip detail_url]>
  (<["Job Description" := Py.strip (get details "Job Description")]>
   ∅)))))).

Definition enrich_job (job : gmap string string) : M (gmap string string) :=
  let detail_url := get job "Job Detail URL" in
  details ← fetch_details detail_url;
  mret (cleaned job details detail_url).

Fixpoint enrichment (jobs detailed_jobs : list (gmap string string))
  : M (list (gmap string string)) :=
  match jobs with
  | [] => mret detailed_jobs
  | job :: rest =>
      row ← enrich_job job;
      enrichment rest (detailed_jobs ++ [row])
  end.
End Scraper.

(** *** DATAFRAME CLEANING *)

(** [pd.DataFrame(records, columns=columns)] *)
Definition DataFrame_of (records : list (gmap string string))
  (columns : list string) : DataFrame :=
  map (fun d => map (fun c => d !! c) columns) records.

Definition applymap (f : option string -> option string) (df : DataFrame)
  : DataFrame :=
  map (map f) df.

(** [lambda v: v.strip() if isinstance(v, str) else v] *)
Definition strip_cell (v : option string) : option string := Py.strip <$> v.

(** [df.replace(to_replace, value)].  (In a column that no record has,
    pandas leaves the values missing; the rows [main] builds have every
    column.) *)
Definition replace (to_replace : list (option string)) (value : string)
  (df : DataFrame) : DataFrame :=
  applymap (fun v => if bool_decide (v ∈ to_replace) then Some value else v)
    df.

(** [df.duplicated(keep=first)]: a row is marked when an equal row stands
    before it. *)
Fixpoint duplicated_after (seen rows : DataFrame) : list bool :=
  match rows with
  | [] => []
  | r :: rest => bool_decide (r ∈ seen) :: duplicated_after (seen ++ [r]) rest
  end.

Definition duplicated (df : DataFrame) : list bool := duplicated_after [] df.

(** [df[mask]] *)
Fixpoint select_rows (mask : list bool) (rows : DataFrame) : DataFrame :=
  match mask, rows with
  | m :: mask', r :: rows' =>
      if m then r :: select_rows mask' rows' else select_rows mask' rows'
  | _, _ => []
  end.

(** [df.drop_duplicates(keep=first)] *)
Definition drop_duplicates (df : DataFrame) : DataFrame :=
  select_rows (negb <$> duplicated df) df.

(** Lines 182 and 183: every cell stripped, then the empty and the missing
    ones replaced by the sentinel. *)
Definition strip_and_fill (df : DataFrame) : DataFrame :=
  replace [Some ""; None] "N/A" (applymap strip_cell df).

(** Lines 182 to 185: strip, replace, drop duplicates ([reset_index]
    renumbers row labels, which a list of rows does not have). *)
Definition normalize (df : DataFrame) : DataFrame :=
  drop_duplicates (strip_and_fill df).

Definition clean_dataframe (detailed_jobs : list (gmap string string))
  : DataFrame :=
  normalize (DataFrame_of detailed_jobs COLUMNS).

Section Main.
Variable html_parser : string -> result (list Soup.node).
Variable urljoin : string -> string -> result string.
Variable b : browser.

(** What [main] does once pagination has ended with [jobs] collected. *)
Definition after_pagination (jobs : list (gmap string string))
  : M DataFrame :=
  detailed_jobs ← enrichment html_parser b jobs [];
  _ ← close_context b;
  _ ← close_browser b;
  mret (clean_dataframe detailed_jobs).

(** [main], from the first page of the session on; [None] when [fuel]
    loop tests did not end the pagination. *)
Definition main (fuel : nat) : M (option DataFrame) :=
  _ ← new_page b;
  walked ← pagination html_parser urljoin b fuel
             {| next_page_url := Some BASE_URL; page_index := 1;
                all_jobs := [] |};
  match walked with
  | None => mret None
  | Some st => df ← after_pagination (all_jobs st); mret (Some df)
  end.
End Main.

(** ** The workbook (openpyxl) *)

(** The worksheet [style_excel] loads is the table [to_excel] wrote: a
    header row and the data rows, each with a cell in every column.  It is
    kept as the list of its rows, row [r] of the sheet at place [r - 1],
    and the cell of column [c] at place [c - 1] of its row.  A cell holds
    a text or nothing, and the four style attributes the program sets; of
    a style object only the fields the program gives are kept. *)
Module Xl.

Record PatternFill : Type := {
  start_color : option string;
  end_color : option string;
  fill_type : option string }.

Record Font : Type := {
  color : option string;
  bold : bool;
  italic : bool }.

Record Alignment : Type := {
  horizontal : option string;
  vertical : option string }.

Record Side : Type := {
  border_style : option string;
  side_color : option string }.

Record Border : Type := {
  left_side : Side;
  right_side : Side;
  top_side : Side;
  bottom_side : Side }.

Record cell : Type := {
  value : option string;
  fill : PatternFill;
  font : Font;
  alignment : Alignment;
  border : Border }.

Record worksheet : Type := {
  rows : list (list cell);
  (** [column_dimensions[letter].width] *)
  column_dimensions : gmap string nat;
  freeze_panes : option string;
  (** [auto_filter.ref] *)
  auto_filter : option string }.

(** Assignments to the attributes of a cell. *)
Definition set_value (v : option string) (c : cell) : cell :=
  {| value := v; fill := fill c; font := font c;
     alignment := alignment c; border := border c |}.

Definition set_fill (f : PatternFill) (c : cell) : cell :=
  {| value := value c; fill := f; font := font c;
     alignment := alignment c; border := border c |}.

Definition set_font (f : Font) (c : cell) : cell :=
  {| value := value c; fill := fill c; font := f;
     alignment := alignment c; border := border c |}.

Definition set_alignment (a : Alignment) (c : cell) : cell :=
  {| value := value c; fill := fill c; font := font c;
     alignment := a; border := border c |}.

Definition set_border (b : Border) (c : cell) : cell :=
  {| value := value c; fill := fill c; font := font c;
     alignment := alignment c; border := b |}.

(** A cell made on first access: no value, no fill, the default font, no
    alignment, no border. *)
Definition no_side : Side := {| border_style := None; side_color := None |}.

Definition new_cell : cell :=
  {| value := None;
     fill := {| start_color := None; end_color := None; fill_type := None |};
     font := {| color := None; bold := false; italic := false |};
     alignment := {| horizontal := None; vertical := None |};
     border := {| left_side := no_side; right_side := no_side;
                  top_side := no_side; bottom_side := no_side |} |}.

Definition with_rows (f : list (list cell) -> list (list cell))
  (ws : worksheet) : worksheet :=
  {| rows := f (rows ws); column_dimensions := column_dimensions ws;
     freeze_panes := freeze_panes ws; auto_filter := auto_filter ws |}.

(** [ws.max_row] and [ws.max_column]; both are 1 on an empty sheet. *)
Definition max_row (ws : worksheet) : nat := Nat.max 1 (List.length (rows ws)).

Definition max_column (ws : worksheet) : nat :=
  Nat.max 1 (max_list (List.length <$> rows ws)).

(** [for cell in <row r>: f(cell)], for the rows given by [ws[r]] and by
    [ws.iter_rows]: the cells of row [r], updated in place. *)
Definition for_row (r : nat) (f : cell -> cell) (ws : worksheet)
  : worksheet :=
  with_rows (alter (map f) (r - 1)) ws.

(** A member of [ws.columns]: the cells of column [c], from the first row
    down. *)
Definition column (c : nat) (ws : worksheet) : list cell :=
  omap (λ row, row !! (c - 1)) (rows ws).

(** [l], made at least [n] long with copies of [d]. *)
Definition pad {A : Type} (n : nat) (d : A) (l : list A) : list A :=
  l ++ replicate (n - List.length l) d.

(** [ws.cell(row, column)] followed by an update of that cell; the cell is
    made when the sheet has none there. *)
Definition at_cell (row column : nat) (f : cell -> cell) (ws : worksheet)
  : worksheet :=
  with_rows (λ rs, alter (λ r, alter f (column - 1) (pad column new_cell r))
                     (row - 1) (pad row [] rs)) ws.

Definition set_width (letter : string) (width : nat) (ws : worksheet)
  : worksheet :=
  {| rows := rows ws;
     column_dimensions := <[letter := width]> (column_dimensions ws);
     freeze_panes := freeze_panes ws; auto_filter := auto_filter ws |}.

Definition set_freeze_panes (ref : string) (ws : worksheet) : worksheet :=
  {| rows := rows ws; column_dimensions := column_dimensions ws;
     freeze_panes := Some ref; auto_filter := auto_filter ws |}.

Definition set_auto_filter (ref : string) (ws : worksheet) : worksheet :=
  {| rows := rows ws; column_dimensions := column_dimensions ws;
     freeze_panes := freeze_panes ws; auto_filter := Some ref |}.

End Xl.

(** *** EXCEL STYLING *)

(** [str(v)] of the value of a cell. *)
Definition str (v : option string) : string := default "None" v.

Definition header_fill : Xl.PatternFill :=
  {| Xl.start_color := Some "1F4E78"; Xl.end_color := Some "1F4E78";
     Xl.fill_type := Some "solid" |}.

Definition header_font : Xl.Font :=
  {| Xl.color := Some "FFFFFF"; Xl.bold := true; Xl.italic := false |}.

Definition grey_font : Xl.Font :=
  {| Xl.color := Some "808080"; Xl.bold := false; Xl.italic := true |}.

Definition alt_fill : Xl.PatternFill :=
  {| Xl.start_color := Some "F5F5F5"; Xl.end_color := Some "F5F5F5";
     Xl.fill_type := Some "solid" |}.

Definition border_side : Xl.Side :=
  {| Xl.border_style := Some "medium"; Xl.side_color := Some "000000" |}.

Definition border : Xl.Border :=
  {| Xl.left_side := border_side; Xl.right_side := border_side;
     Xl.top_side := border_side; Xl.bottom_side := border_side |}.

Definition centered : Xl.Alignment :=
  {| Xl.horizontal := Some "center"; Xl.vertical := Some "center" |}.

(** The text of the first footer cell; its pictograph is kept as the four
    bytes of its UTF-8 form, and nothing looks into this text. *)
Definition SOURCE_NOTE : string :=
  "📊 Sourced from (https://realpython.github.io/fake-jobs/)".

Section StyleExcel.
(** [get_column_letter] and the text of [ws.dimensions] are openpyxl's. *)
Variable get_column_letter : nat -> string.
Variable dimensions : list (list Xl.cell) -> string.

(** Lines 207 to 210: the header. *)
Definition style_header (ws : Xl.worksheet) : Xl.worksheet :=
  Xl.for_row 1
    (λ cell, Xl.set_alignment centered
               (Xl.set_font header_font (Xl.set_fill header_fill cell)))
    ws.

(** The body of the loop over the data rows, lines 214 to 223; [str] and
    [strip] do not raise, so the handler of line 221 is never entered. *)
Definition style_row (r_idx : nat) (ws : Xl.worksheet) : Xl.worksheet :=
  let ws :=
    if (r_idx mod 2 =? 0)%nat then Xl.for_row r_idx (Xl.set_fill alt_fill) ws
    else ws in
  Xl.for_row r_idx
    (λ cell,
       let cell :=
         if String.eqb (Py.strip (str (Xl.value cell))) "N/A"
         then Xl.set_font grey_font cell else cell in
       Xl.set_border border cell)
    ws.

(** Lines 213 to 223: [iter_rows(min_row=2)] gives the rows 2 to
    [max_row], numbered from 2 by [enumerate]. *)
Definition style_data_rows (ws : Xl.worksheet) : Xl.worksheet :=
  foldl (λ ws r_idx, style_row r_idx ws) ws (seq 2 (Xl.max_row ws - 1)).

(** Lines 227 to 235: the length of the longest text of a column. *)
Definition max_length (col : list Xl.cell) : nat :=
  foldl (λ max_length cell,
           let v := match Xl.value cell with Some s => s | None => "" end in
           if (max_length <? String.length v)%nat then String.length v
           else max_length)
    0%nat col.

(** Lines 226 to 237: a width for every column. *)
Definition auto_fit (ws : Xl.worksheet) : Xl.worksheet :=
  foldl (λ ws c,
           let col := Xl.column c ws in
           let col_letter := get_column_letter c in
           let adjusted_width := Nat.min (max_length col + 2) 80 in
           Xl.set_width col_letter adjusted_width ws)
    ws (seq 1 (Xl.max_column ws)).

(** Lines 242 to 247: the two footer cells. *)
Definition add_footer (timestamp : string) (ws : Xl.worksheet)
  : Xl.worksheet :=
  let last_row := Xl.max_row ws + 2 in
  let ws := Xl.at_cell last_row 1 (Xl.set_value (Some SOURCE_NOTE)) ws in
  let ws := Xl.at_cell (last_row + 1) 1
              (Xl.set_value (Some ("Generated on: " +:+ timestamp))) ws in
  let ws := Xl.at_cell last_row 1 (Xl.set_font grey_font) ws in
  Xl.at_cell (last_row + 1) 1 (Xl.set_font grey_font) ws.

(** [style_excel], from the worksheet it loads to the one it saves;
    [timestamp] is the formatted time of the call, line 243. *)
Definition style_excel (timestamp : string) (ws : Xl.worksheet)
  : Xl.worksheet :=
  let ws := style_header ws in
  let ws := style_data_rows ws in
  let ws := auto_fit ws in
  let ws := Xl.set_freeze_panes "A2" ws in
  let ws := Xl.set_auto_filter (dimensions (Xl.rows ws)) ws in
  add_footer timestamp ws.
End StyleExcel.

(** ** Vocabulary of the statements *)

(** A cell of the final table is well formed: the sentinel, or a non-empty
    string that stripping leaves alone. *)
Definition trimmed_or_sentinel (cell : option string) : Prop :=
  ∃ s, cell = Some s ∧ (s = "N/A" ∨ (s ≠ "" ∧ Py.strip s = s)).


(** The rows a table keeps when the rows of [seen] stand before it. *)
Definition dedup_after (seen rows : DataFrame) : DataFrame :=
  select_rows (negb <$> duplicated_after seen rows) rows.

(** The calls to [context.new_page()] in a stretch of the run, and the
    delays tenacity waited, in order. *)
Definition new_pages (evs : list event) : nat :=
  List.length (filter (λ ev, ev = NewPage) evs).

Definition waits (evs : list event) : list Z :=
  omap (λ ev, match ev with Wait s => Some s | _ => None end) evs.

(** The first result among the selector strategies, tried in order. *)
Definition first_match (strategies : list Soup.selector)
  (soup : Soup.element) : option Soup.element :=
  List.head (omap (λ sel, Soup.select_one sel soup) strategies).

(** [walks n st w st' w']: [n] full passes through the body of the
    pagination loop lead from the variables [st] in world [w] to [st'] in
    [w']. *)
Inductive walks (html_parser : string -> result (list Soup.node))
  (urljoin : string -> string -> result string) (b : browser)
  : nat -> walker -> world -> walker -> world -> Prop :=
| walks_here st w : walks html_parser urljoin b 0 st w st w
| walks_next n st url w st1 w1 st2 w2 :
    next_page_url st = Some url ->
    Py.truthy url = true ->
    page_body html_parser urljoin b st url w = (Ok (Continue st1), w1) ->
    walks html_parser urljoin b n st1 w1 st2 w2 ->
    walks html_parser urljoin b (S n) st w st2 w2.

(** A row of the enrichment phase is the record it was made from, with
    some details merged in. *)
Definition row_for (job row : gmap string string) : Prop :=
  ∃ details, row = cleaned job details (get job "Job Detail URL").

(** What the record of one card says about the elements the card lacks. *)
Definition degrades (soup card : Soup.element) (job : gmap string string)
  : Prop :=
  (Soup.select_one sel_title card = None → job !! "Job Title" = Some "")
  ∧ (Soup.select_one sel_company card = None →
     job !! "Company Name" = Some "")
  ∧ (Soup.select_one sel_date card = None → job !! "Date Posted" = Some "")
  ∧ (Soup.select_one sel_logo card = None → job !! "Logo URL" = Some "")
  ∧ (Soup.find_next soup card "a" "Apply" = None →
     job !! "Job Detail URL" = Some "")
  ∧ (∀ e, Soup.select_one sel_logo card = Some e →
          Soup.has_attr e "src" = false → job !! "Logo URL" = Some "")
  ∧ (∀ e, Soup.find_next soup card "a" "Apply" = Some e →
          Soup.has_attr e "href" = false → job !! "Job Detail URL" = Some "").

(** The links of a card that [parse_jobs_from_page] resolves against the
    base URL: the stripped [href] of its Apply link, then the stripped
    [src] of its logo, each when it is there and not empty. *)
Definition card_links (soup card : Soup.element) : list string :=
  filter (λ url, Py.truthy url = true)
    [ value_of "" (attr_or_empty (Soup.find_next soup card "a" "Apply")
                     "href");
      value_of "" (attr_or_empty (Soup.select_one sel_logo card) "src") ].

(** One attempt opens at most one page and never waits. *)
Definition one_attempt {A : Type} (f : M A) : Prop :=
  ∀ w, ∃ evs, (f w).2 = w ++ evs ∧ (new_pages evs ≤ 1)%nat ∧ waits evs = [].

(** The variables after a pass through the loop body that went on to the
    loop test (else [d]). *)
Definition continues (m : result flow * world) : bool :=
  match m.1 with Ok (Continue _) => true | _ => false end.

Definition continued (d : walker) (m : result flow * world) : walker :=
  match m.1 with Ok (Continue st) => st | _ => d end.

(** The row of the table built from one record. *)
Definition row_of (record : gmap string string) : list (option string) :=
  map (fun c => record !! c) COLUMNS.


(** The browser [b] with another behaviour of its close calls. *)
Definition with_close (b : browser) (c : nat -> option exn) : browser :=
  {| new_page_outcome := new_page_outcome b;
     goto_outcome := goto_outcome b;
     content_outcome := content_outcome b;
     close_outcome := c |}.

(** [traces Q m]: whatever the world, [m] only adds events to it, and the
    events it adds satisfy [Q]. *)
Definition traces {A : Type} (Q : list event -> Prop) (m : M A) : Prop :=
  ∀ w, ∃ evs, (m w).2 = w ++ evs ∧ Q evs.

(** The keys of a summary record and of a detail record. *)
Definition SUMMARY_KEYS : list string :=
  ["Job Title"; "Company Name"; "Job Detail URL"; "Date Posted"; "Logo URL"].

Definition DETAIL_KEYS : list string := ["Location"; "Job Description"].

(** [x] is an anchor whose whole text is Apply: what the [find_next] call
    of [parse_jobs_from_page] looks for. *)
Definition is_apply_link (x : Soup.element) : Prop :=
  String.eqb (Soup.el_name x) "a" = true ∧ Soup.string_of x = Some "Apply".

(** The events of a detail fetch: a page opened and closed, a navigation
    with the detail timeout, the settle delay, the capture of the markup,
    and a wait between attempts of 1 to 5 seconds. *)
Definition detail_event (ev : event) : Prop :=
  match ev with
  | NewPage | ClosePage | Content _ => True
  | Goto _ timeout_ms => timeout_ms = DETAIL_TIMEOUT_MS
  | Sleep ms => ms = 100%Z
  | Wait seconds => (1 ≤ seconds ≤ 5)%Z
  | CloseContext | CloseBrowser => False
  end.

(** The events of the pagination loop: a navigation with the list timeout,
    the capture of the markup, and the pacing delay. *)
Definition list_event (ev : event) : Prop :=
  match ev with
  | Goto _ timeout_ms => timeout_ms = NAV_TIMEOUT_MS
  | Content _ => True
  | Sleep ms => ms = 200%Z
  | _ => False
  end.

(** What loading one list page and finding a next link adds to the run. *)
Definition page_events (url : string) : list event :=
  [Goto url NAV_TIMEOUT_MS; Content url; Sleep 200].

(** The variables [main] starts the pagination loop with. *)
Definition first_page : walker :=
  {| next_page_url := Some BASE_URL; page_index := 1; all_jobs := [] |}.

(** [s] has no character other than whitespace. *)
Fixpoint blank (s : string) : bool :=
  match s with
  | EmptyString => true
  | String c s' => Py.isspace c && blank s'
  end.

(** A text after stripping and filling, said directly: the sentinel for a
    blank text, the stripped text otherwise. *)
Definition filled (s : string) : string :=
  if blank s then "N/A" else Py.strip s.

(** The text of a cell is the sentinel, up to surrounding whitespace. *)
Definition shows_sentinel (c : Xl.cell) : bool :=
  String.eqb (Py.strip (str (Xl.value c))) "N/A".

(** The cell of row [r], column [c] of a list of rows, both from 1. *)
Definition cell_at (rs : list (list Xl.cell)) (r c : nat) : option Xl.cell :=
  match r, c with
  | S i, S j => (rs !! i) ≫= (λ row, row !! j)
  | _, _ => None
  end.

(** What the styling makes of a cell of the header row, and of a cell of
    the data row [r]. *)
Definition header_style (c : Xl.cell) : Xl.cell :=
  {| Xl.value := Xl.value c; Xl.fill := header_fill; Xl.font := header_font;
     Xl.alignment := centered; Xl.border := Xl.border c |}.

Definition data_style (r : nat) (c : Xl.cell) : Xl.cell :=
  {| Xl.value := Xl.value c;
     Xl.fill := if (r mod 2 =? 0)%nat then alt_fill else Xl.fill c;
     Xl.font := if shows_sentinel c then grey_font else Xl.font c;
     Xl.alignment := Xl.alignment c;
     Xl.border := border |}.

Definition styled (r : nat) (c : Xl.cell) : Xl.cell :=
  if (r =? 1)%nat then header_style c else data_style r c.

(** A footer cell: a new cell with its text in the grey font. *)
Definition footer_cell (text : string) : Xl.cell :=
  Xl.set_font grey_font (Xl.set_value (Some text) Xl.new_cell).

(** A table: a header row, and in every row as many cells as in the
    header. *)
Definition is_table (rs : list (list Xl.cell)) : Prop :=
  ∃ header data,
    rs = header :: data
    ∧ header ≠ []
    ∧ Forall (λ row, List.length row = List.length header) data.

(** The number of characters a cell shows. *)
Definition text_length (c : Xl.cell) : nat :=
  match Xl.value c with Some s => String.length s | None => 0 end.

(** ** A small site to run the scraper on *)

Module Fixture.
Import Soup.

Definition text_tag (name : string) (attrs : gmap string string)
  (text : string) : node :=
  Tag name attrs [NavigableString text].

(** One job card of the list page, as the site lays it out: the
    card-content block, then the footer with the Learn and Apply links. *)
Definition card (title company date href : string) : node :=
  Tag "div" {[ "class" := "card" ]}
    [ Tag "div" {[ "class" := "card-content" ]}
        [ Tag "figure" {[ "class" := "image is-48x48" ]}
            [ Tag "img" {[ "src" := "logo.png" ]} [] ];
          text_tag "h2" {[ "class" := "title is-5" ]} title;
          text_tag "h3" {[ "class" := "subtitle is-6 company" ]} company;
          Tag "p" ∅ [ text_tag "time" {[ "datetime" := date ]} date ] ];
      Tag "footer" {[ "class" := "card-footer" ]}
        [ text_tag "a" {[ "href" := "https://www.realpython.com" ]} "Learn";
          text_tag "a" {[ "href" := href ]} "Apply" ] ].

(** A card with nothing but its frame: no title, company, date or logo,
    and no Apply link after it. *)
Definition bare_card : node :=
  Tag "div" {[ "class" := "card" ]}
    [ Tag "div" {[ "class" := "card-content" ]} [] ].

Definition list_page_1 : list node :=
  [ card " Senior Python Developer " "Payne, Roberts and Davis"
      "2021-04-08" "jobs/a.html";
    card "Energy engineer" "Vasquez-Davidson" "2021-04-08" "jobs/b.html";
    Tag "a" {[ "class" := "pagination-next"; "href" := "page2.html" ]} [] ].

Definition list_page_2 : list node :=
  [ card "Legal executive" "Jackson, Chambers and Levy" "2021-04-09"
      "jobs/c.html";
    bare_card ].

Definition detail_page (name : string) : list node :=
  [ text_tag "p" {[ "id" := "location" ]} ("Location: " +:+ name);
    Tag "div" {[ "class" := "box" ]} [ text_tag "p" ∅ ("About " +:+ name) ] ].

(** A list page whose first next-page candidate has no [href], before a
    second candidate that has one. *)
Definition dangling_next : list node :=
  [ text_tag "a" {[ "class" := "pagination-next" ]} "Next";
    Tag "a" {[ "class" := "next"; "href" := "page2.html" ]} [] ].

(** A list page with one card that lacks nothing, whose Apply link has an
    [href] that [urljoin] cannot split, and a next-page link with the same
    [href]. *)
Definition bad_links : list node :=
  [ card "Energy engineer" "Vasquez-Davidson" "2021-04-08" "//[";
    Tag "a" {[ "class" := "pagination-next"; "href" := "//[" ]} [] ].

(** The markup of a page is named by a short key: the parser maps the keys
    of the list pages to their trees, gives up on one markup, and maps any
    other text to the detail page of that name. *)
Definition html_parser (html : string) : result (list node) :=
  if String.eqb html "LIST 1" then Ok list_page_1
  else if String.eqb html "LIST 2" then Ok list_page_2
  else if String.eqb html "DANGLING" then Ok dangling_next
  else if String.eqb html "BAD LINKS" then Ok bad_links
  else if String.eqb html "<![foo bar]>"
       then Raise (ParserRejectedMarkup "The markup cannot be parsed")
  else Ok (detail_page html).

(** [urljoin] on the relative links of the site, and on the one link on
    which [urllib] raises. *)
Definition urljoin (base url : string) : result string :=
  if String.eqb url "//[" then Raise (ValueError "Invalid IPv6 URL")
  else Ok (base +:+ url).

Definition page2 : string := BASE_URL +:+ "page2.html".

Definition served (url : string) : string :=
  if String.eqb url BASE_URL then "LIST 1"
  else if String.eqb url page2 then "LIST 2"
  else url.

(** Navigation to [bad] always times out; every other call succeeds. *)
Definition unreachable (bad : string) : browser :=
  {| new_page_outcome := fun _ => None;
     goto_outcome := fun _ url =>
       if String.eqb url bad then Some (pwTimeout "Timeout exceeded")
       else None;
     content_outcome := fun _ url => Ok (served url);
     close_outcome := fun _ => None |}.

(** Every navigation made before time [t] fails, the later ones succeed;
    closing a page always fails. *)
Definition flaky_until (t : nat) : browser :=
  {| new_page_outcome := fun _ => None;
     goto_outcome := fun now _ =>
       if (now <? t)%nat then Some (PlaywrightError "net::ERR_FAILED")
       else None;
     content_outcome := fun _ url => Ok (served url);
     close_outcome := fun _ => Some (PlaywrightError "Target closed") |}.

(** Summary records as the pagination phase hands them over. *)
Definition summary (title url : string) : gmap string string :=
  <["Job Title" := title]>
  (<["Company Name" := "Acme"]>
  (<["Job Detail URL" := url]>
  (<["Date Posted" := "2021-04-08"]>
  (<["Logo URL" := "logo.png"]> ∅)))).

(** A row of the table: a title and a location, the other five columns
    fixed. *)
Definition row (title location : string) : list (option string) :=
  [ Some title; Some "Acme"; Some location; Some "2021-04-08";
    Some "logo.png"; Some "N/A"; Some "N/A" ].

(** Five distinct summaries; the third one's detail page is [jobs/3]. *)
Definition five_summaries : list (gmap string string) :=
  [ summary "One" "jobs/1"; summary "Two" ""; summary "Three" "jobs/3";
    summary "Four" "jobs/4"; summary "Five" "jobs/5" ].

(** Five summaries of which the first three are the same record. *)
Definition five_with_copies : list (gmap string string) :=
  [ summary "Three" "jobs/3"; summary "Three" "jobs/3";
    summary "Three" "jobs/3"; summary "Four" "jobs/4";
    summary "Five" "jobs/5" ].
End Fixture.

(** ** More pages and browsers *)

Module Samples.
Import Soup.

(** A list page whose first card has lost its footer: the only Apply link
    of the page belongs to the second card. *)
Definition orphan_page : list node :=
  [ Tag "div" {[ "class" := "card" ]}
      [ Tag "div" {[ "class" := "card-content" ]}
          [ Fixture.text_tag "h2" {[ "class" := "title is-5" ]} "First" ] ];
    Fixture.card "Second" "Acme" "2021-04-08" "jobs/second.html" ].

(** A detail page with a description and no location element. *)
Definition no_location_page : list node :=
  [ Tag "div" {[ "class" := "box" ]}
      [ Tag "p" ∅ [ NavigableString "  Builds ";
                    Tag "b" ∅ [NavigableString "bridges"] ] ] ].
End Samples.

Module Outages.
(** Every call succeeds. *)
Definition none : browser := Fixture.unreachable "nowhere".


(** The session cannot open a page. *)
Definition no_page : browser :=
  {| new_page_outcome := fun _ => Some (PlaywrightError "Browser closed");
     goto_outcome := fun _ _ => None;
     content_outcome := fun _ url => Ok (Fixture.served url);
     close_outcome := fun _ => None |}.

(** Closing anything fails. *)
Definition no_close : browser :=
  with_close none (fun _ => Some (PlaywrightError "Target closed")).

End Outages.

Module Sheets.
Definition text (s : string) : Xl.cell := Xl.set_value (Some s) Xl.new_cell.

(** A table of two columns as it is loaded: the header and three data
    rows, no style yet. *)
Definition jobs : Xl.worksheet :=
  {| Xl.rows :=
       [ [text "Job Title"; text "Location"];
         [text "Energy engineer"; text "N/A"];
         [text "Legal executive"; text " Remote"];
         [text "N/A"; text "Stewartbury, AA"] ];
     Xl.column_dimensions := ∅;
     Xl.freeze_panes := None;
     Xl.auto_filter := None |}.

(** The letter of a column and the range of a sheet, for sheets of at most
    26 columns and 9 rows. *)
Definition get_column_letter (c : nat) : string :=
  String (ascii_of_nat (64 + c)) "".

Definition dimensions (rs : list (list Xl.cell)) : string :=
  "A1:" +:+ get_column_letter (max_list (List.length <$> rs))
  +:+ String (ascii_of_nat (48 + List.length rs)) "".
End Sheets.

(** Unfolds the operations of the monad. *)
Ltac unfold_M :=
  unfold mbind, M_bind, bind, mret, M_ret, ret, lift, try_except in *.

(** * Theorems *)

Set Warnings "-clear-no-such-hyp".

(** ** Strings *)

Lemma lstrip_idem s : Py.lstrip (Py.lstrip s) = Py.lstrip s.
Proof.
  induction s as [|c s IH]; simpl; [done|].
  destruct (Py.isspace c) eqn:E; [done|]. simpl. by rewrite E.
Qed.

Lemma rstrip_idem s : Py.rstrip (Py.rstrip s) = Py.rstrip s.
Proof.
  induction s as [|c s IH]; simpl; [done|].
  destruct (Py.isspace c && Py.is_empty (Py.rstrip s)) eqn:E; [done|].
  simpl. rewrite IH. by rewrite E.
Qed.

Lemma lstrip_rstrip s : Py.lstrip (Py.rstrip s) = Py.rstrip (Py.lstrip s).
Proof.
  induction s as [|c s IH]; simpl; [done|].
  destruct (Py.isspace c) eqn:E; simpl.
  - destruct (Py.rstrip s) eqn:R; simpl in *; [by rewrite <- IH|].
    by rewrite E.
  - by rewrite E.
Qed.

Lemma strip_idem s : Py.strip (Py.strip s) = Py.strip s.
Proof.
  unfold Py.strip. rewrite (lstrip_rstrip (Py.lstrip _)).
  by rewrite lstrip_idem, <- lstrip_rstrip, rstrip_idem.
Qed.

Lemma truthy_false s : Py.truthy s = false ↔ s = "".
Proof. destruct s; simpl; split; intros H; done. Qed.

Lemma truthy_true s : Py.truthy s = true ↔ s ≠ "".
Proof. destruct s; simpl; split; intros H; done. Qed.

(** ** Results and options *)

Lemma run_Ok {A : Type} (d : A) (m : result A * world) :
  is_Ok m.1 = true → m = (Ok (value_of d m.1), m.2).
Proof. by destruct m as [[a|e] w]. Qed.

Lemma run_Raise {A : Type} (m : result A * world) :
  is_Ok m.1 = false → m = (Raise (error_of m.1), m.2).
Proof. by destruct m as [[a|e] w]. Qed.

Lemma option_default {A : Type} (d : A) (o : option A) :
  bool_decide (is_Some o) = true → o = Some (default d o).
Proof. destruct o; [done|]. intros H. by apply bool_decide_eq_true in H as [? ?]. Qed.

Lemma result_Ok {A : Type} (d : A) (r : result A) :
  is_Ok r = true → r = Ok (value_of d r).
Proof. by destruct r. Qed.

Lemma run_Ok_Some {A : Type} (d : A) (m : result (option A) * world) :
  is_Ok_Some m.1 = true → m = (Ok (Some (default d (value_of None m.1))), m.2).
Proof. by destruct m as [[[a|]|e] w]. Qed.

(** ** The table *)

(** What lines 182 and 183 do to one cell. *)
Lemma strip_and_fill_cells df :
  strip_and_fill df =
  map (map (λ v, if bool_decide (strip_cell v ∈ [Some ""; None])
                 then Some "N/A" else strip_cell v)) df.
Proof.
  unfold strip_and_fill, replace, applymap. rewrite map_map.
  apply map_ext. intros row. by rewrite map_map.
Qed.

Lemma filled_cell_ok v :
  trimmed_or_sentinel
    (if bool_decide (strip_cell v ∈ [Some ""; None]) then Some "N/A"
     else strip_cell v).
Proof.
  case_bool_decide as Hin.
  - exists "N/A". auto.
  - destruct v as [s|]; simpl in *; [|set_solver].
    exists (Py.strip s). split; [done|]. right. split.
    + intros Heq. rewrite Heq in Hin. set_solver.
    + apply strip_idem.
Qed.

Lemma filled_cell_fixed v :
  trimmed_or_sentinel v →
  (if bool_decide (strip_cell v ∈ [Some ""; None]) then Some "N/A"
   else strip_cell v) = v.
Proof.
  intros (s & -> & [-> | [Hne Hs]]).
  - reflexivity.
  - simpl. rewrite Hs. rewrite bool_decide_eq_false_2; [done|].
    intros H. apply list_elem_of_In in H. simpl in H.
    destruct H as [H|[H|[]]]; [|discriminate H].
    injection H as H. by apply Hne.
Qed.

Lemma strip_and_fill_ok df :
  Forall (Forall trimmed_or_sentinel) (strip_and_fill df).
Proof.
  rewrite strip_and_fill_cells. apply Forall_forall. intros row Hrow.
  apply list_elem_of_fmap in Hrow as (row0 & -> & _).
  apply Forall_forall. intros cell Hcell.
  apply list_elem_of_fmap in Hcell as (v & -> & _). apply filled_cell_ok.
Qed.

Lemma strip_and_fill_fixed df :
  Forall (Forall trimmed_or_sentinel) df → strip_and_fill df = df.
Proof.
  intros Hok. rewrite strip_and_fill_cells.
  induction Hok as [|row rest Hrow _ IH]; [done|]. simpl. f_equal; [|done].
  induction Hrow as [|cell cells Hcell _ IHr]; [done|]. simpl.
  by rewrite filled_cell_fixed, IHr.
Qed.

Lemma dedup_after_cons seen r rest :
  dedup_after seen (r :: rest) =
  if bool_decide (r ∈ seen) then dedup_after (seen ++ [r]) rest
  else r :: dedup_after (seen ++ [r]) rest.
Proof. unfold dedup_after. simpl. by destruct (bool_decide (r ∈ seen)). Qed.

Lemma elem_of_dedup_after rows : ∀ seen x,
  x ∈ dedup_after seen rows ↔ x ∈ rows ∧ x ∉ seen.
Proof.
  induction rows as [|r rest IH]; intros seen x.
  - unfold dedup_after; simpl. set_solver.
  - rewrite dedup_after_cons. case_bool_decide as Hr.
    + rewrite IH. set_solver.
    + rewrite elem_of_cons, IH.
      destruct (decide (x = r)) as [->|Hne]; set_solver.
Qed.

Lemma NoDup_dedup_after rows : ∀ seen, NoDup (dedup_after seen rows).
Proof.
  induction rows as [|r rest IH]; intros seen.
  - constructor.
  - rewrite dedup_after_cons. case_bool_decide; [apply IH|].
    constructor; [|apply IH]. rewrite elem_of_dedup_after. set_solver.
Qed.

Lemma sublist_dedup_after rows : ∀ seen, sublist (dedup_after seen rows) rows.
Proof.
  induction rows as [|r rest IH]; intros seen.
  - constructor.
  - rewrite dedup_after_cons. case_bool_decide.
    + by apply sublist_cons.
    + by apply sublist_skip.
Qed.

Lemma dedup_after_NoDup rows : ∀ seen,
  NoDup rows → (∀ x, x ∈ rows → x ∉ seen) → dedup_after seen rows = rows.
Proof.
  induction rows as [|r rest IH]; intros seen Hnd Hfresh; [done|].
  rewrite dedup_after_cons. inversion Hnd as [|?? Hnotin Hnd']; subst.
  rewrite bool_decide_eq_false_2 by (apply Hfresh; set_solver).
  f_equal. apply IH; [done|]. intros x Hx.
  rewrite elem_of_app, list_elem_of_singleton. intros [ ? | -> ]; [|done].
  eapply Hfresh; [|done]. set_solver.
Qed.


Lemma drop_duplicates_NoDup df : NoDup df → drop_duplicates df = df.
Proof.
  intros Hnd. apply (dedup_after_NoDup df [] Hnd). intros x _. set_solver.
Qed.

Lemma main_returns_clean_dataframe html_parser urljoin b fuel w df w' :
  main html_parser urljoin b fuel w = (Ok (Some df), w') →
  ∃ detailed_jobs, df = clean_dataframe detailed_jobs.
Proof.
  unfold main, after_pagination. unfold_M.
  destruct (new_page b w) as [[[]|?] w0]; [|done].
  destruct (pagination html_parser urljoin b fuel _ w0) as [[[st|]|?] w1];
    [|done|done].
  destruct (enrichment html_parser b (all_jobs st) [] w1) as [[rows|?] w2];
    [|done].
  destruct (close_context b w2) as [[[]|?] w3]; [|done].
  destruct (close_browser b w3) as [[[]|?] w4]; [|done].
  intros [= <- _]. by exists rows.
Qed.

Lemma clean_dataframe_ok (detailed_jobs : list (gmap string string)) :
  Forall (λ row, List.length row = 7 ∧ Forall trimmed_or_sentinel row)
    (clean_dataframe detailed_jobs).
Proof.
  apply Forall_forall. intros row Hrow.
  unfold clean_dataframe, normalize in Hrow.
  apply (elem_of_dedup_after _ [] row) in Hrow as [Hrow _].
  split.
  - rewrite strip_and_fill_cells in Hrow.
    apply list_elem_of_fmap in Hrow as (row0 & -> & Hrow0).
    rewrite length_map. unfold DataFrame_of in Hrow0.
    apply list_elem_of_fmap in Hrow0 as (d & -> & _).
    by rewrite length_map.
  - pose proof (strip_and_fill_ok (DataFrame_of detailed_jobs COLUMNS)) as H.
    rewrite Forall_forall in H. by apply H.
Qed.

(** C3: every field of every row of the table handed to the output sink is
    a string, never a missing value, and that string is the sentinel N/A or
    a non-empty string without leading or trailing whitespace; every row
    has the seven columns.  This holds for the table built from any
    records, and so for the table of every run of [main] that returns
    one. *)
Theorem output_fields_trimmed_or_sentinel :
  (∀ detailed_jobs : list (gmap string string),
     Forall (λ row, List.length row = 7 ∧ Forall trimmed_or_sentinel row)
       (clean_dataframe detailed_jobs))
  ∧ (∀ html_parser urljoin b fuel w df w',
       main html_parser urljoin b fuel w = (Ok (Some df), w') →
       Forall (λ row, List.length row = 7 ∧ Forall trimmed_or_sentinel row)
         df).
Proof.
  split; [apply clean_dataframe_ok|].
  intros html_parser urljoin b fuel w df w' Hmain.
  destruct (main_returns_clean_dataframe _ _ _ _ _ _ _ Hmain) as (rows & ->).
  apply clean_dataframe_ok.
Qed.

Lemma output_fields_trimmed_or_sentinel_witness :
  let run := main Fixture.html_parser Fixture.urljoin
               (Fixture.unreachable (BASE_URL +:+ "jobs/b.html"))
               5 [] in
  let df := default [] (value_of None run.1) in
  List.length df = 4
  ∧ Forall (λ row, List.length row = 7 ∧ Forall trimmed_or_sentinel row) df.
Proof.
  intros run df. split; [vm_compute; reflexivity|].
  apply (proj2 output_fields_trimmed_or_sentinel Fixture.html_parser
           Fixture.urljoin
           (Fixture.unreachable (BASE_URL +:+ "jobs/b.html"))
           5 [] df run.2).
  apply (run_Ok_Some [] run). vm_compute. reflexivity.
Defined.

(** C4: the normalizer is idempotent: run on its own output it returns
    that output, row for row and field for field. *)
Theorem normalize_idempotent (df : DataFrame) :
  normalize (normalize df) = normalize df.
Proof.
  unfold normalize at 1.
  assert (Hok : Forall (Forall trimmed_or_sentinel) (normalize df)).
  { apply Forall_forall. intros row Hrow.
    apply (elem_of_dedup_after _ [] row) in Hrow as [Hrow _].
    pose proof (strip_and_fill_ok df) as H.
    rewrite Forall_forall in H. by apply H. }
  rewrite (strip_and_fill_fixed _ Hok).
  apply drop_duplicates_NoDup. apply (NoDup_dedup_after _ []).
Qed.




(** ** The markup extractor *)

Lemma lower_char_colon c : Py.lower_char c = ":"%char → c = ":"%char.
Proof.
  destruct c as [[] [] [] [] [] [] [] []]; vm_compute; intros H;
    first [reflexivity | discriminate H].
Qed.

Lemma lower_char_not_colon c x :
  x = Py.lower_char c → x ≠ ":"%char → Ascii.eqb c ":" = false.
Proof.
  intros -> Hne. apply Ascii.eqb_neq. intros ->. by apply Hne.
Qed.

Lemma strip_label_spec text :
  strip_label text =
  Ok (if Py.startswith (Py.lower text) "location:"
      then Py.strip (Py.slice_from 9 text) else text).
Proof.
  unfold strip_label.
  destruct (Py.startswith (Py.lower text) "location:") eqn:Hpre; [|done].
  unfold Py.startswith in Hpre.
  do 9 (destruct text as [|? text]; [discriminate Hpre|];
        simpl in Hpre;
        match type of Hpre with
        | (if ?d then _ else _) = _ => destruct d; [|discriminate Hpre]
        end).
  simpl Py.slice_from.
  match goal with H : ":"%char = Py.lower_char ?c |- _ =>
    symmetry in H; apply lower_char_colon in H; subst c end.
  simpl.
  repeat match goal with
         | H : ?x = Py.lower_char ?c |- _ =>
             rewrite (lower_char_not_colon c x H) by discriminate; clear H
         end.
  simpl. 
  reflexivity.
Qed.

Lemma parse_job_details_spec html_parser html soup :
  Py.truthy html = true →
  BeautifulSoup html_parser html = Ok soup →
  let text_of := λ el : option Soup.element,
    match el with Some e => Soup.get_text " " true e | None => "" end in
  let location := text_of (Soup.select_one sel_location soup) in
  parse_job_details html_parser (Some html) =
  Ok (<["Location" :=
          if Py.startswith (Py.lower location) "location:"
          then Py.strip (Py.slice_from 9 location) else location]>
      (<["Job Description" :=
           text_of (Soup.select_one sel_description soup)]> ∅)).
Proof.
  intros Htruthy Hsoup. cbv zeta beta. unfold parse_job_details.
  rewrite Htruthy, Hsoup. cbv [negb rbind]. by rewrite strip_label_spec.
Qed.

Lemma parse_job_details_rejected html_parser html e :
  Py.truthy html = true →
  html_parser html = Raise e →
  parse_job_details html_parser (Some html) = Raise e.
Proof.
  intros Htruthy Hraise. unfold parse_job_details, BeautifulSoup.
  by rewrite Htruthy, Hraise.
Qed.

(** C7: the location text loses a leading label only in the narrow form
    the source tests for.  When the lower-cased text starts with the nine
    characters of location-colon, in any mix of cases, the result is the
    text after those nine characters, stripped; any other text is returned
    unchanged, and the step never raises.  So the text Location: Remote
    gives Remote, the text Remote stays Remote, and the text with a blank
    before the colon is left as it is.  The Location field that
    [parse_job_details] returns is this result for the text of the
    location element. *)
Theorem location_label_stripped :
  (∀ text, strip_label text =
           Ok (if Py.startswith (Py.lower text) "location:"
               then Py.strip (Py.slice_from 9 text) else text))
  ∧ strip_label "Location: Remote" = Ok "Remote"
  ∧ strip_label "lOCATION:Remote" = Ok "Remote"
  ∧ strip_label "Remote" = Ok "Remote"
  ∧ strip_label "Location : Remote" = Ok "Location : Remote"
  ∧ (∀ html_parser html soup e,
       Py.truthy html = true →
       BeautifulSoup html_parser html = Ok soup →
       Soup.select_one sel_location soup = Some e →
       ∃ details location,
         parse_job_details html_parser (Some html) = Ok details
         ∧ details !! "Location" = Some location
         ∧ strip_label (Soup.get_text " " true e) = Ok location).
Proof.
  split; [apply strip_label_spec|].
  repeat (split; [reflexivity|]).
  intros html_parser html soup e Htruthy Hsoup Hsel.
  pose proof (parse_job_details_spec html_parser html soup Htruthy Hsoup)
    as Hspec.
  cbv zeta beta in Hspec. rewrite Hsel in Hspec.
  eexists _, _. split; [exact Hspec|]. split.
  - by rewrite lookup_insert_eq.
  - apply strip_label_spec.
Qed.

Lemma location_label_stripped_witness :
  ∃ e, Soup.select_one sel_location
         (Soup.document (Fixture.detail_page "Remote")) = Some e
       ∧ Soup.get_text " " true e = "Location: Remote"
       ∧ ∃ details,
           parse_job_details Fixture.html_parser (Some "Remote") = Ok details
           ∧ details !! "Location" = Some "Remote".
Proof.
  destruct (Soup.select_one sel_location
              (Soup.document (Fixture.detail_page "Remote")))
    as [e|] eqn:Hsel;
    [|vm_compute in Hsel; discriminate Hsel].
  exists e. split; [reflexivity|].
  assert (Htext : Soup.get_text " " true e = "Location: Remote").
  { vm_compute in Hsel. injection Hsel as <-. reflexivity. }
  split; [exact Htext|].
  destruct (proj2 (proj2 (proj2 (proj2 (proj2 location_label_stripped))))
              Fixture.html_parser "Remote" _ e eq_refl eq_refl Hsel)
    as (details & location & Hparse & Hloc & Hstrip).
  exists details. split; [exact Hparse|].
  rewrite Htext in Hstrip. vm_compute in Hstrip. injection Hstrip as <-.
  exact Hloc.
Defined.

Lemma attr_or_empty_total el k :
  ∃ v, attr_or_empty el k = Ok v
       ∧ (el = None → v = "")
       ∧ (∀ e, el = Some e → Soup.has_attr e k = false → v = "").
Proof.
  destruct el as [e|]; simpl.
  - unfold Soup.has_attr, Soup.getitem.
    destruct (Soup.el_attrs e !! k) as [v|] eqn:Hk.
    + rewrite bool_decide_eq_true_2 by (by eexists). simpl.
      eexists. split; [done|]. split; [done|].
      intros e' [= <-] Hno.
      unfold Soup.has_attr in Hno. rewrite Hk in Hno.
      rewrite bool_decide_eq_true_2 in Hno by (by eexists). done.
    + rewrite bool_decide_eq_false_2 by (by intros [? ?]).
      eexists. split; [done|]. done.
  - eexists. split; [done|]. split; [done|]. intros e [=].
Qed.

Lemma attr_or_empty_trimmed el k :
  ∃ v, attr_or_empty el k = Ok v ∧ Py.strip v = v.
Proof.
  destruct el as [e|]; simpl; [|by exists ""].
  unfold Soup.has_attr, Soup.getitem.
  destruct (Soup.el_attrs e !! k) as [v|].
  - rewrite bool_decide_eq_true_2 by (by eexists). simpl.
    eexists. split; [done|apply strip_idem].
  - rewrite bool_decide_eq_false_2 by (by intros [? ?]). by exists "".
Qed.

(** What [parse_card] comes to: the three attributes are read without
    failure, and the rest is the two calls of [urljoin]. *)
Lemma parse_card_outcome urljoin soup card :
  ∃ date logo href,
    attr_or_empty (Soup.select_one sel_date card) "datetime" = Ok date
    ∧ attr_or_empty (Soup.select_one sel_logo card) "src" = Ok logo
    ∧ attr_or_empty (Soup.find_next soup card "a" "Apply") "href" = Ok href
    ∧ Py.strip date = date
    ∧ parse_card urljoin soup card
      = rbind (if Py.truthy href then urljoin BASE_URL href else Ok "")
          (λ detail_url,
             rbind (if Py.truthy logo then urljoin BASE_URL logo else Ok "")
               (λ logo_url,
                  Ok (<["Job Title" :=
                          text_or_empty (Soup.select_one sel_title card)]>
                      (<["Company Name" :=
                           text_or_empty (Soup.select_one sel_company card)]>
                      (<["Job Detail URL" := detail_url]>
                      (<["Date Posted" := date]>
                      (<["Logo URL" := logo_url]> ∅)))))))
    ∧ card_links soup card = filter (λ url, Py.truthy url = true) [href; logo].
Proof.
  unfold parse_card, card_links.
  destruct (attr_or_empty_trimmed (Soup.select_one sel_date card) "datetime")
    as (date & Hdate & Hd).
  destruct (attr_or_empty_trimmed (Soup.select_one sel_logo card) "src")
    as (logo & Hlogo & _).
  destruct (attr_or_empty_trimmed (Soup.find_next soup card "a" "Apply")
              "href") as (href & Hhref & _).
  exists date, logo, href. rewrite Hdate, Hlogo, Hhref. simpl. done.
Qed.

Lemma parse_card_degrades urljoin soup card job :
  parse_card urljoin soup card = Ok job → degrades soup card job.
Proof.
  intros Hjob.
  destruct (parse_card_outcome urljoin soup card)
    as (date & logo & href & Hdate & Hlogo & Hhref & _ & Hcard & _).
  rewrite Hcard in Hjob.
  destruct (attr_or_empty_total (Soup.select_one sel_date card) "datetime")
    as (date' & Hdate' & Hd & _).
  destruct (attr_or_empty_total (Soup.select_one sel_logo card) "src")
    as (logo' & Hlogo' & Hl & Hl').
  destruct (attr_or_empty_total (Soup.find_next soup card "a" "Apply") "href")
    as (href' & Hhref' & Hh & Hh').
  rewrite Hdate in Hdate'. rewrite Hlogo in Hlogo'. rewrite Hhref in Hhref'.
  injection Hdate' as <-. injection Hlogo' as <-. injection Hhref' as <-.
  assert (Hno_logo : logo = "" → job !! "Logo URL" = Some "").
  { intros ->. simpl in Hjob.
    destruct (if Py.truthy href then urljoin BASE_URL href else Ok "");
      simpl in Hjob; [|done]. injection Hjob as <-. by simplify_map_eq. }
  assert (Hno_href : href = "" → job !! "Job Detail URL" = Some "").
  { intros ->. simpl in Hjob.
    destruct (if Py.truthy logo then urljoin BASE_URL logo else Ok "");
      simpl in Hjob; [|done]. injection Hjob as <-. by simplify_map_eq. }
  assert (Hfields : job !! "Job Title"
                    = Some (text_or_empty (Soup.select_one sel_title card))
                    ∧ job !! "Company Name"
                      = Some (text_or_empty
                                (Soup.select_one sel_company card))
                    ∧ job !! "Date Posted" = Some date).
  { destruct (if Py.truthy href then urljoin BASE_URL href else Ok "");
      simpl in Hjob; [|done].
    destruct (if Py.truthy logo then urljoin BASE_URL logo else Ok "");
      simpl in Hjob; [|done]. injection Hjob as <-. by simplify_map_eq. }
  destruct Hfields as (Htitle & Hcompany & Hposted).
  unfold degrades. repeat split.
  - intros H. by rewrite Htitle, H.
  - intros H. by rewrite Hcompany, H.
  - intros H. by rewrite Hposted, (Hd H).
  - intros H. apply Hno_logo, Hl, H.
  - intros H. apply Hno_href, Hh, H.
  - intros e H1 H2. apply Hno_logo, (Hl' e H1 H2).
  - intros e H1 H2. apply Hno_href, (Hh' e H1 H2).
Qed.

(** A link of a card is not empty, and it is the stripped attribute of an
    element that is there. *)
Lemma attr_or_empty_value el k url :
  value_of "" (attr_or_empty el k) = url → url ≠ "" →
  ∃ e v, el = Some e ∧ Soup.el_attrs e !! k = Some v ∧ url = Py.strip v.
Proof.
  destruct el as [e|]; simpl; [|by intros <-].
  unfold Soup.has_attr, Soup.getitem.
  destruct (Soup.el_attrs e !! k) as [v|] eqn:Hv.
  - rewrite bool_decide_eq_true_2 by (by eexists). simpl.
    intros <- _. by exists e, v.
  - rewrite bool_decide_eq_false_2 by (by intros [? ?]). by intros <-.
Qed.

Lemma card_links_present soup card url :
  url ∈ card_links soup card →
  url ≠ ""
  ∧ ((∃ e v, Soup.find_next soup card "a" "Apply" = Some e
             ∧ Soup.el_attrs e !! "href" = Some v ∧ url = Py.strip v)
     ∨ (∃ e v, Soup.select_one sel_logo card = Some e
               ∧ Soup.el_attrs e !! "src" = Some v ∧ url = Py.strip v)).
Proof.
  unfold card_links. intros Hurl.
  apply list_elem_of_filter in Hurl as [Htruthy Hurl].
  apply truthy_true in Htruthy. split; [exact Htruthy|].
  apply elem_of_cons in Hurl as [Hurl|Hurl].
  - left. by apply attr_or_empty_value.
  - apply list_elem_of_singleton in Hurl. right.
    by apply attr_or_empty_value.
Qed.

(** [parse_card] returns exactly when [urljoin] returns on the links of
    the card, and what it raises is what [urljoin] raised on one of
    them. *)
Lemma parse_card_is_Ok urljoin soup card :
  is_Ok (parse_card urljoin soup card) = true
  ↔ ∀ url, url ∈ card_links soup card → is_Ok (urljoin BASE_URL url) = true.
Proof.
  destruct (parse_card_outcome urljoin soup card)
    as (date & logo & href & _ & _ & _ & _ & -> & ->).
  simpl. rewrite !filter_cons, filter_nil.
  destruct (Py.truthy href) eqn:Hh, (Py.truthy logo) eqn:Hl;
    (rewrite ?decide_True by done); (rewrite ?decide_False by done); simpl.
  - split.
    + intros H url Hurl.
      destruct (urljoin BASE_URL href) eqn:E1; [|done]. simpl in H.
      destruct (urljoin BASE_URL logo) eqn:E2; [|done].
      apply elem_of_cons in Hurl as [->|Hurl]; [by rewrite E1|].
      apply list_elem_of_singleton in Hurl as ->. by rewrite E2.
    + intros H.
      pose proof (H href ltac:(set_solver)) as H1.
      pose proof (H logo ltac:(set_solver)) as H2.
      destruct (urljoin BASE_URL href); [|done]. simpl.
      by destruct (urljoin BASE_URL logo).
  - split.
    + intros H url Hurl. apply list_elem_of_singleton in Hurl as ->.
      by destruct (urljoin BASE_URL href).
    + intros H. pose proof (H href ltac:(set_solver)) as H1.
      by destruct (urljoin BASE_URL href).
  - split.
    + intros H url Hurl. apply list_elem_of_singleton in Hurl as ->.
      by destruct (urljoin BASE_URL logo).
    + intros H. pose proof (H logo ltac:(set_solver)) as H1.
      by destruct (urljoin BASE_URL logo).
  - split; [|done]. intros _ url Hurl. by apply elem_of_nil in Hurl.
Qed.

Lemma parse_card_raises urljoin soup card e :
  parse_card urljoin soup card = Raise e →
  ∃ url, url ∈ card_links soup card ∧ urljoin BASE_URL url = Raise e.
Proof.
  destruct (parse_card_outcome urljoin soup card)
    as (date & logo & href & _ & _ & _ & _ & -> & ->).
  rewrite !filter_cons, filter_nil.
  destruct (Py.truthy href) eqn:Hh, (Py.truthy logo) eqn:Hl;
    (rewrite ?decide_True by done); (rewrite ?decide_False by done); simpl;
    intros H.
  - destruct (urljoin BASE_URL href) eqn:E1; simpl in H.
    + destruct (urljoin BASE_URL logo) eqn:E2; simpl in H; [done|].
      injection H as ->. exists logo. split; [set_solver|done].
    + injection H as ->. exists href. split; [set_solver|done].
  - destruct (urljoin BASE_URL href) eqn:E1; simpl in H; [done|].
    injection H as ->. exists href. split; [set_solver|done].
  - destruct (urljoin BASE_URL logo) eqn:E2; simpl in H; [done|].
    injection H as ->. exists logo. split; [set_solver|done].
  - done.
Qed.

Lemma parse_cards_each urljoin soup cards : ∀ acc jobs,
  parse_cards urljoin soup cards acc = Ok jobs →
  ∃ new, jobs = acc ++ new
         ∧ Forall2 (λ card job, parse_card urljoin soup card = Ok job)
             cards new.
Proof.
  induction cards as [|card rest IH]; intros acc jobs; simpl.
  - intros [= <-]. exists []. by rewrite app_nil_r.
  - destruct (parse_card urljoin soup card) as [job|] eqn:Hjob; [|done].
    simpl. intros Hrest.
    destruct (IH _ _ Hrest) as (new & -> & Hnew).
    exists (job :: new). rewrite <- app_assoc. split; [done|].
    by constructor.
Qed.

Lemma parse_cards_raises urljoin soup cards : ∀ acc e,
  parse_cards urljoin soup cards acc = Raise e →
  ∃ card, card ∈ cards ∧ parse_card urljoin soup card = Raise e.
Proof.
  induction cards as [|card rest IH]; intros acc e; simpl; [done|].
  destruct (parse_card urljoin soup card) as [job|e'] eqn:Hjob; simpl.
  - intros Hrest. destruct (IH _ _ Hrest) as (c & Hc & Hraise).
    exists c. split; [set_solver|done].
  - intros [= ->]. exists card. split; [set_solver|done].
Qed.

Lemma parse_cards_is_Ok urljoin soup cards : ∀ acc,
  is_Ok (parse_cards urljoin soup cards acc) = true
  ↔ ∀ card, card ∈ cards → is_Ok (parse_card urljoin soup card) = true.
Proof.
  induction cards as [|card rest IH]; intros acc; simpl.
  - split; [|done]. intros _ card Hcard. by apply elem_of_nil in Hcard.
  - destruct (parse_card urljoin soup card) as [job|e] eqn:Hjob; simpl.
    + rewrite IH. split.
      * intros H c Hc. apply elem_of_cons in Hc as [->|Hc];
          [by rewrite Hjob|by apply H].
      * intros H c Hc. apply H. set_solver.
    + split; [done|]. intros H.
      specialize (H card ltac:(set_solver)). by rewrite Hjob in H.
Qed.

(** C8, amended: [parse_jobs_from_page] is not total on every markup, yet
    a missing element is never what makes it raise.  It raises what the
    parser raises on markup the parser rejects.  On markup that parses it
    returns exactly when [urljoin] returns on every link it resolves, and
    what it raises otherwise is what [urljoin] raised on one of those
    links; such a link is never empty, and it is the stripped [href] of an
    Apply link that is there or the stripped [src] of a logo that is
    there.  When it returns, it returns one record per card, in the order
    of the cards, and the record of a card has the empty string as its
    title when the title element is absent, and likewise for an absent
    company, date, logo or Apply link, and for a logo without [src] or a
    link without [href]. *)
Theorem parse_jobs_from_page_total html_parser urljoin html :
  (∀ e, html_parser html = Raise e →
        parse_jobs_from_page html_parser urljoin html = Raise e)
  ∧ (∀ soup,
       BeautifulSoup html_parser html = Ok soup →
       let cards := Soup.select sel_card soup in
       let parsed := parse_jobs_from_page html_parser urljoin html in
       (is_Ok parsed = true
        ↔ ∀ card url, card ∈ cards → url ∈ card_links soup card →
                      is_Ok (urljoin BASE_URL url) = true)
       ∧ (∀ e, parsed = Raise e →
               ∃ card url, card ∈ cards ∧ url ∈ card_links soup card
                           ∧ urljoin BASE_URL url = Raise e)
       ∧ (∀ card url, url ∈ card_links soup card →
            url ≠ ""
            ∧ ((∃ e v, Soup.find_next soup card "a" "Apply" = Some e
                       ∧ Soup.el_attrs e !! "href" = Some v
                       ∧ url = Py.strip v)
               ∨ (∃ e v, Soup.select_one sel_logo card = Some e
                         ∧ Soup.el_attrs e !! "src" = Some v
                         ∧ url = Py.strip v)))
       ∧ (∀ jobs, parsed = Ok jobs →
                  List.length jobs = List.length cards
                  ∧ ∀ i card, cards !! i = Some card →
                      ∃ job, jobs !! i = Some job ∧ degrades soup card job)).
Proof.
  split.
  { intros e He. unfold parse_jobs_from_page, BeautifulSoup. by rewrite He. }
  intros soup Hsoup cards parsed.
  assert (Hparsed : parsed = parse_cards urljoin soup cards [])
    by (unfold parsed, parse_jobs_from_page; by rewrite Hsoup).
  rewrite Hparsed. clear Hparsed parsed.
  split; [|split; [|split]].
  - rewrite parse_cards_is_Ok. split.
    + intros H card url Hcard. by apply parse_card_is_Ok, H.
    + intros H card Hcard. apply parse_card_is_Ok. intros url. by apply H.
  - intros e He.
    destruct (parse_cards_raises _ _ _ _ _ He) as (card & Hcard & Hraise).
    destruct (parse_card_raises _ _ _ _ Hraise) as (url & Hurl & Hjoin).
    by exists card, url.
  - intros card url. apply card_links_present.
  - intros jobs Hjobs.
    destruct (parse_cards_each _ _ _ _ _ Hjobs) as (new & -> & Hall).
    simpl. split; [symmetry; by eapply Forall2_length|].
    intros i card Hcard.
    destruct (Forall2_lookup_l _ _ _ _ _ Hall Hcard) as (job & Hjob & Hparse).
    exists job. split; [done|]. by eapply parse_card_degrades.
Qed.

Lemma parse_jobs_from_page_total_witness :
  ∃ jobs job,
    parse_jobs_from_page Fixture.html_parser Fixture.urljoin "LIST 2" = Ok jobs
    ∧ List.length jobs = 2
    ∧ jobs !! 1 = Some job
    ∧ job !! "Job Title" = Some ""
    ∧ job !! "Company Name" = Some ""
    ∧ job !! "Date Posted" = Some ""
    ∧ job !! "Logo URL" = Some ""
    ∧ job !! "Job Detail URL" = Some "".
Proof.
  pose (soup := Soup.document Fixture.list_page_2).
  pose (parsed := parse_jobs_from_page Fixture.html_parser Fixture.urljoin
                    "LIST 2").
  pose (jobs := value_of [] parsed).
  assert (Hparse : parsed = Ok jobs)
    by (apply result_Ok; vm_compute; reflexivity).
  destruct (proj2 (parse_jobs_from_page_total Fixture.html_parser
                     Fixture.urljoin "LIST 2") soup eq_refl)
    as (_ & _ & _ & Hreturned).
  destruct (Hreturned jobs Hparse) as (Hlen & Hall).
  pose (card := default soup (Soup.select sel_card soup !! 1)).
  assert (Hcard : Soup.select sel_card soup !! 1 = Some card)
    by (apply option_default; vm_compute; reflexivity).
  destruct (Hall 1 card Hcard) as (job & Hjob & Ht & Hc & Hd & Hl & Hu & _).
  exists jobs, job. split; [exact Hparse|].
  split; [rewrite Hlen; vm_compute; reflexivity|]. split; [exact Hjob|].
  split; [apply Ht; vm_compute; reflexivity|].
  split; [apply Hc; vm_compute; reflexivity|].
  split; [apply Hd; vm_compute; reflexivity|].
  split; [apply Hl; vm_compute; reflexivity|].
  apply Hu; vm_compute; reflexivity.
Defined.

(** The counterexample to C8 as the spec words it: a page whose only card
    lacks nothing, on which [parse_jobs_from_page] raises because the
    [href] of the Apply link is one [urljoin] cannot split. *)
Lemma parse_jobs_from_page_raises_on_a_bad_link :
  let soup := Soup.document Fixture.bad_links in
  let card := default soup (Soup.select sel_card soup !! 0) in
  List.length (Soup.select sel_card soup) = 1
  ∧ is_Some (Soup.select_one sel_title card)
  ∧ is_Some (Soup.select_one sel_company card)
  ∧ is_Some (Soup.select_one sel_date card)
  ∧ is_Some (Soup.select_one sel_logo card)
  ∧ is_Some (Soup.find_next soup card "a" "Apply")
  ∧ parse_jobs_from_page Fixture.html_parser Fixture.urljoin "BAD LINKS"
    = Raise (ValueError "Invalid IPv6 URL").
Proof.
  intros soup card. split; [vm_compute; reflexivity|].
  repeat (split; [apply (bool_decide_unpack _); vm_compute; exact I|]).
  vm_compute. reflexivity.
Qed.

(** ** The next-page link *)

Lemma next_link_first_match soup :
  next_link soup = first_match [sel_pagination_next; sel_next; sel_rel_next] soup.
Proof.
  unfold next_link, first_match, py_or. simpl.
  destruct (Soup.select_one sel_pagination_next soup); [done|].
  destruct (Soup.select_one sel_next soup); [done|].
  by destruct (Soup.select_one sel_rel_next soup).
Qed.

(** C6, amended: the next-page link is the first present match of the
    three selector strategies, tried in the order pagination-next class,
    next class, rel attribute equal to next; there is none exactly when no
    strategy matches.  When that first match has an [href], the next URL
    is what [urljoin] makes of the [href] against the base URL, and when
    [urljoin] raises on it the exception is raised here too.  The next URL
    is none exactly when no strategy matches or the first match has no
    [href]; and nothing but [urljoin] on the [href] of the first match
    makes the step raise. *)
Theorem next_url_first_match_with_href urljoin soup :
  next_link soup =
    first_match [sel_pagination_next; sel_next; sel_rel_next] soup
  ∧ (next_link soup = None ↔
       Soup.select_one sel_pagination_next soup = None
       ∧ Soup.select_one sel_next soup = None
       ∧ Soup.select_one sel_rel_next soup = None)
  ∧ (∀ e href, next_link soup = Some e → Soup.el_attrs e !! "href" = Some href →
       (∀ url, urljoin BASE_URL href = Ok url →
               next_url urljoin soup = Ok (Some url))
       ∧ (∀ err, urljoin BASE_URL href = Raise err →
                 next_url urljoin soup = Raise err))
  ∧ (next_url urljoin soup = Ok None ↔
       next_link soup = None
       ∨ ∃ e, next_link soup = Some e ∧ Soup.el_attrs e !! "href" = None)
  ∧ (∀ err, next_url urljoin soup = Raise err →
       ∃ e href, next_link soup = Some e
                 ∧ Soup.el_attrs e !! "href" = Some href
                 ∧ urljoin BASE_URL href = Raise err).
Proof.
  split; [apply next_link_first_match|]. split; [|split; [|split]].
  - unfold next_link, py_or.
    destruct (Soup.select_one sel_pagination_next soup);
      destruct (Soup.select_one sel_next soup);
      destruct (Soup.select_one sel_rel_next soup); naive_solver.
  - intros e href Hlink Hhref. unfold next_url. rewrite Hlink.
    unfold Soup.has_attr, Soup.getitem. rewrite Hhref.
    rewrite bool_decide_eq_true_2 by (by eexists). simpl.
    split; [by intros url ->|by intros err ->].
  - unfold next_url. destruct (next_link soup) as [e|]; [|naive_solver].
    unfold Soup.has_attr, Soup.getitem.
    destruct (Soup.el_attrs e !! "href") as [href|] eqn:Hhref.
    + rewrite bool_decide_eq_true_2 by (by eexists). simpl.
      destruct (urljoin BASE_URL href); simpl;
        (split; [done|]; intros [?|(e' & [= <-] & ?)]; congruence).
    + rewrite bool_decide_eq_false_2 by (by intros [? ?]).
      split; [|done]. intros _. right. by exists e.
  - intros err. unfold next_url. destruct (next_link soup) as [e|]; [|done].
    unfold Soup.has_attr, Soup.getitem.
    destruct (Soup.el_attrs e !! "href") as [href|] eqn:Hhref.
    + rewrite bool_decide_eq_true_2 by (by eexists). simpl.
      destruct (urljoin BASE_URL href) eqn:Hjoin; simpl; [done|].
      intros [= ->]. by exists e, href.
    + by rewrite bool_decide_eq_false_2 by (by intros [? ?]).
Qed.

Lemma next_url_first_match_with_href_witness :
  next_url Fixture.urljoin (Soup.document Fixture.list_page_1)
  = Ok (Some Fixture.page2)
  ∧ next_url Fixture.urljoin (Soup.document Fixture.bad_links)
    = Raise (ValueError "Invalid IPv6 URL").
Proof.
  split.
  - set (soup := Soup.document Fixture.list_page_1).
    pose (e := default soup (next_link soup)).
    assert (Hlink : next_link soup = Some e)
      by (apply option_default; vm_compute; reflexivity).
    assert (Hhref : Soup.el_attrs e !! "href" = Some "page2.html")
      by (vm_compute; reflexivity).
    exact (proj1 (proj1 (proj2 (proj2
             (next_url_first_match_with_href Fixture.urljoin soup)))
             e "page2.html" Hlink Hhref) Fixture.page2 eq_refl).
  - set (soup := Soup.document Fixture.bad_links).
    pose (e := default soup (next_link soup)).
    assert (Hlink : next_link soup = Some e)
      by (apply option_default; vm_compute; reflexivity).
    assert (Hhref : Soup.el_attrs e !! "href" = Some "//[")
      by (vm_compute; reflexivity).
    exact (proj2 (proj1 (proj2 (proj2
             (next_url_first_match_with_href Fixture.urljoin soup)))
             e "//[" Hlink Hhref) (ValueError "Invalid IPv6 URL") eq_refl).
Defined.

(** C6 as stated fails: on a page whose first candidate, of class
    pagination-next, has no [href], the next URL is none although two
    strategies match (the second one even with an [href]). *)
Lemma next_url_none_with_a_match :
  let soup := Soup.document Fixture.dangling_next in
  ¬ (next_url Fixture.urljoin soup = Ok None ↔
       Soup.select_one sel_pagination_next soup = None
       ∧ Soup.select_one sel_next soup = None
       ∧ Soup.select_one sel_rel_next soup = None).
Proof.
  intros soup [Hnone _].
  assert (H : next_url Fixture.urljoin soup = Ok None) by reflexivity.
  destruct (Hnone H) as [Hfirst _]. vm_compute in Hfirst. discriminate Hfirst.
Qed.

(** ** The enrichment phase *)

Section Enrichment.
Variable html_parser : string -> result (list Soup.node).
Variable b : browser.

Lemma fetch_details_total url w :
  ∃ details w',
    fetch_details html_parser b url w = (Ok details, w')
    ∧ (Py.truthy url = false → details = no_details ∧ w' = w)
    ∧ (∀ e w2, fetch_detail_html b url w = (Raise e, w2) →
         details = no_details ∧ w' = w2).
Proof.
  unfold fetch_details. destruct (Py.truthy url) eqn:Hurl.
  - unfold_M. destruct (fetch_detail_html b url w) as [[html|e] w1].
    + destruct (parse_job_details html_parser html) as [d|e];
        [|destruct e]; simpl;
        (eexists _, _; split; [done|]; split; [done|]; intros ?? [=]).
    + eexists _, _. split; [by destruct e|]. split; [done|].
      by intros ?? [= <- <-].
  - unfold_M. eexists _, _. split; [done|]. split; [done|].
    intros e w2. unfold fetch_detail_html, retry, fetch_detail_html_attempt.
    rewrite Hurl. simpl. unfold_M. done.
Qed.

Lemma enrich_job_total job w :
  ∃ details w',
    enrich_job html_parser b job w
    = (Ok (cleaned job details (get job "Job Detail URL")), w')
    ∧ fetch_details html_parser b (get job "Job Detail URL") w
      = (Ok details, w').
Proof.
  unfold enrich_job.
  destruct (fetch_details_total (get job "Job Detail URL") w)
    as (details & w' & Hfetch & _).
  unfold_M. rewrite Hfetch. by eexists _, _.
Qed.

Lemma enrich_job_failed job w e w2 :
  fetch_detail_html b (get job "Job Detail URL") w = (Raise e, w2) →
  enrich_job html_parser b job w
  = (Ok (cleaned job no_details (get job "Job Detail URL")), w2).
Proof.
  intros Hfail. unfold enrich_job.
  destruct (fetch_details_total (get job "Job Detail URL") w)
    as (details & w' & Hfetch & _ & Hraise).
  destruct (Hraise e w2 Hfail) as [-> ->].
  unfold_M. by rewrite Hfetch.
Qed.

Lemma enrichment_total jobs : ∀ w,
  ∃ rows w',
    (∀ acc, enrichment html_parser b jobs acc w = (Ok (acc ++ rows), w'))
    ∧ Forall2 row_for jobs rows.
Proof.
  induction jobs as [|job rest IH]; intros w; simpl.
  - exists [], w. split; [|constructor].
    intros acc. unfold_M. by rewrite app_nil_r.
  - destruct (enrich_job_total job w) as (details & w1 & Hjob & _).
    destruct (IH w1) as (rows & w' & Hrest & Hrows).
    eexists (_ :: rows), w'. split.
    + intros acc. unfold_M. rewrite Hjob, Hrest. by rewrite <- app_assoc.
    + constructor; [by eexists|done].
Qed.

Lemma enrichment_acc jobs acc w rows w' :
  enrichment html_parser b jobs [] w = (Ok rows, w') →
  enrichment html_parser b jobs acc w = (Ok (acc ++ rows), w').
Proof.
  destruct (enrichment_total jobs w) as (rows0 & w0 & H & _).
  rewrite (H []), (H acc). by intros [= <- <-].
Qed.

Lemma enrichment_cons job rest w row w1 rows w' :
  enrich_job html_parser b job w = (Ok row, w1) →
  enrichment html_parser b rest [] w1 = (Ok rows, w') →
  enrichment html_parser b (job :: rest) [] w = (Ok (row :: rows), w').
Proof.
  intros Hjob Hrest. simpl. unfold_M. rewrite Hjob.
  by rewrite (enrichment_acc rest [row] w1 rows w' Hrest).
Qed.

Lemma enrichment_app pre post w rows_pre w1 rows_post w' :
  enrichment html_parser b pre [] w = (Ok rows_pre, w1) →
  enrichment html_parser b post [] w1 = (Ok rows_post, w') →
  enrichment html_parser b (pre ++ post) [] w
  = (Ok (rows_pre ++ rows_post), w').
Proof.
  revert w rows_pre. induction pre as [|job rest IH]; intros w rows_pre.
  - simpl. unfold_M. by intros [= <- <-].
  - intros Hpre Hpost.
    destruct (enrich_job_total job w) as (details & w0 & Hjob & _).
    destruct (enrichment_total rest w0) as (rows & w2 & Hrest & _).
    rewrite (enrichment_cons _ _ _ _ _ _ _ Hjob (Hrest [])) in Hpre.
    injection Hpre as <- <-. simpl.
    apply (enrichment_cons _ _ _ _ _ _ _ Hjob).
    by apply IH; [apply (Hrest [])|].
Qed.
End Enrichment.

Lemma strip_and_fill_lookup rows i :
  strip_and_fill (DataFrame_of rows COLUMNS) !! i
  = (λ row, map (λ v, if bool_decide (strip_cell v ∈ [Some ""; None])
                      then Some "N/A" else strip_cell v) (row_of row))
    <$> rows !! i.
Proof.
  rewrite strip_and_fill_cells. unfold DataFrame_of.
  change (map ?f ?l) with (f <$> l). by rewrite !list_lookup_fmap, <- option_fmap_compose.
Qed.

(** C10: whatever the browser does during the detail fetch of a record
    (fetch skipped, successful, or failed after its retries), the pass of
    the enrichment loop over that record returns a row, and the Job Title,
    Company Name, Date Posted, Logo URL and Job Detail URL of the row are
    the stripped values of the summary record; only the details merged in,
    that is Location and Job Description, depend on the fetch. *)
Theorem enrichment_frame html_parser b job w :
  ∃ row w',
    enrich_job html_parser b job w = (Ok row, w')
    ∧ row_for job row
    ∧ row !! "Job Title" = Some (Py.strip (get job "Job Title"))
    ∧ row !! "Company Name" = Some (Py.strip (get job "Company Name"))
    ∧ row !! "Date Posted" = Some (Py.strip (get job "Date Posted"))
    ∧ row !! "Logo URL" = Some (Py.strip (get job "Logo URL"))
    ∧ row !! "Job Detail URL" = Some (Py.strip (get job "Job Detail URL")).
Proof.
  destruct (enrich_job_total html_parser b job w) as (details & w' & H & _).
  eexists _, w'. split; [exact H|]. split; [by eexists|].
  unfold cleaned. repeat split; by simplify_map_eq.
Qed.

(** C1, amended: for every list of summary records the enrichment loop
    returns, without raising, exactly one row per record, in the order of
    the records.  When the detail fetch of a record fails after its
    retries, the row of that record stands at the record's position with
    the empty string as Location and Job Description; stripping and
    filling the table turns both into N/A; and when the stripped and filled
    table has no two equal rows, the final table has as many rows as there
    are records and the row at that position has N/A in both columns. *)
Theorem enrichment_one_row_per_summary html_parser b :
  (∀ jobs w, ∃ rows w',
      enrichment html_parser b jobs [] w = (Ok rows, w')
      ∧ List.length rows = List.length jobs
      ∧ Forall2 row_for jobs rows)
  ∧ (∀ pre job post w rows_pre w1 e w2,
      enrichment html_parser b pre [] w = (Ok rows_pre, w1) →
      fetch_detail_html b (get job "Job Detail URL") w1 = (Raise e, w2) →
      ∃ rows w' row,
        enrichment html_parser b (pre ++ job :: post) [] w = (Ok rows, w')
        ∧ List.length rows = List.length (pre ++ job :: post)
        ∧ rows !! List.length pre = Some row
        ∧ row_for job row
        ∧ row !! "Location" = Some ""
        ∧ row !! "Job Description" = Some ""
        ∧ (∃ r, strip_and_fill (DataFrame_of rows COLUMNS) !! List.length pre
                = Some r
                ∧ r !! 2 = Some (Some "N/A")
                ∧ r !! 6 = Some (Some "N/A"))
        ∧ (NoDup (strip_and_fill (DataFrame_of rows COLUMNS)) →
           List.length (clean_dataframe rows)
           = List.length (pre ++ job :: post)
           ∧ ∃ r, clean_dataframe rows !! List.length pre = Some r
                  ∧ r !! 2 = Some (Some "N/A")
                  ∧ r !! 6 = Some (Some "N/A"))).
Proof.
  split.
  - intros jobs w.
    destruct (enrichment_total html_parser b jobs w) as (rows & w' & H & HF).
    exists rows, w'. split; [apply (H [])|]. split; [|done].
    symmetry. by eapply Forall2_length.
  - intros pre job post w rows_pre w1 e w2 Hpre Hfail.
    pose proof (enrich_job_failed html_parser b job w1 e w2 Hfail) as Hjob.
    destruct (enrichment_total html_parser b post w2)
      as (rows_post & w' & Hpost & HFpost).
    pose proof (enrichment_cons _ _ _ _ _ _ _ _ _ Hjob (Hpost [])) as Htail.
    pose proof (enrichment_app _ _ _ _ _ _ _ _ _ Hpre Htail) as Hrun.
    destruct (enrichment_total html_parser b pre w)
      as (rows_pre' & w1' & Hpre' & HFpre).
    rewrite (Hpre' []) in Hpre. injection Hpre as -> ->.
    assert (Hlen : List.length rows_pre = List.length pre)
      by (symmetry; by eapply Forall2_length).
    set (row := cleaned job no_details (get job "Job Detail URL")) in *.
    assert (Hrow : (rows_pre ++ row :: rows_post) !! List.length pre = Some row)
      by (rewrite <- Hlen; apply list_lookup_middle; done).
    exists (rows_pre ++ row :: rows_post), w', row.
    split; [exact Hrun|]. split.
    { rewrite !length_app. simpl. rewrite Hlen. f_equal. f_equal.
      symmetry. by eapply Forall2_length. }
    split; [exact Hrow|]. split; [by eexists|].
    split; [done|]. split; [done|].
    assert (Hcells : ∃ r,
              strip_and_fill (DataFrame_of (rows_pre ++ row :: rows_post)
                                COLUMNS) !! List.length pre = Some r
              ∧ r !! 2 = Some (Some "N/A") ∧ r !! 6 = Some (Some "N/A")).
    { rewrite strip_and_fill_lookup, Hrow. simpl. eexists. split; [done|].
      done. }
    split; [exact Hcells|].
    intros Hnodup. unfold clean_dataframe, normalize.
    rewrite (drop_duplicates_NoDup _ Hnodup).
    split; [|exact Hcells].
    rewrite strip_and_fill_cells. unfold DataFrame_of. rewrite !length_map.
    rewrite !length_app. simpl. rewrite Hlen. f_equal. f_equal.
    symmetry. by eapply Forall2_length.
Qed.

Lemma enrichment_one_row_per_summary_witness :
  let b := Fixture.unreachable "jobs/3" in
  let pre := [Fixture.summary "One" "jobs/1"; Fixture.summary "Two" ""] in
  let job := Fixture.summary "Three" "jobs/3" in
  let post := [Fixture.summary "Four" "jobs/4";
               Fixture.summary "Five" "jobs/5"] in
  ∃ rows w',
    enrichment Fixture.html_parser b (pre ++ job :: post) [] [] = (Ok rows, w')
    ∧ List.length rows = 5
    ∧ NoDup (strip_and_fill (DataFrame_of rows COLUMNS))
    ∧ List.length (clean_dataframe rows) = 5
    ∧ ∃ r, clean_dataframe rows !! 2 = Some r
           ∧ r !! 2 = Some (Some "N/A")
           ∧ r !! 6 = Some (Some "N/A").
Proof.
  intros b pre job post.
  pose (before := enrichment Fixture.html_parser b pre [] []).
  pose (failed := fetch_detail_html b (get job "Job Detail URL") before.2).
  assert (Hpre : before = (Ok (value_of [] before.1), before.2))
    by (apply run_Ok; vm_compute; reflexivity).
  assert (Hfail : failed = (Raise (error_of failed.1), failed.2))
    by (apply run_Raise; vm_compute; reflexivity).
  destruct (proj2 (enrichment_one_row_per_summary Fixture.html_parser b)
              pre job post [] _ _ _ _ Hpre Hfail)
    as (rows & w' & row & Hrun & Hlen & _ & _ & _ & _ & _ & Hfinal).
  assert (Hnodup : NoDup (strip_and_fill (DataFrame_of rows COLUMNS))).
  { replace rows with
      (value_of [] (enrichment Fixture.html_parser b (pre ++ job :: post)
                      [] []).1) by (by rewrite Hrun).
    apply (bool_decide_unpack _). vm_compute. exact I. }
  exists rows, w'. split; [exact Hrun|]. split; [exact Hlen|].
  split; [exact Hnodup|]. exact (Hfinal Hnodup).
Defined.

(** C1 as stated fails: with five summaries of which the first three are
    the same record, and the detail fetch of that record always failing,
    the rows of the enrichment loop are five but the third has the empty
    string, not N/A, as Location; and the final table has three rows, not
    five. *)
Lemma five_summaries_with_copies :
  let b := Fixture.unreachable "jobs/3" in
  let rows :=
    value_of []
      (enrichment Fixture.html_parser b Fixture.five_with_copies [] []).1 in
  (∀ w, ∃ e w', fetch_detail_html b "jobs/3" w = (Raise e, w'))
  ∧ List.length Fixture.five_with_copies = 5
  ∧ ¬ (List.length rows = 5
       ∧ ∃ row, rows !! 2 = Some row ∧ row !! "Location" = Some "N/A"
                ∧ row !! "Job Description" = Some "N/A")
  ∧ ¬ (List.length (clean_dataframe rows) = 5
       ∧ ∃ r, clean_dataframe rows !! 2 = Some r
              ∧ r !! 2 = Some (Some "N/A") ∧ r !! 6 = Some (Some "N/A")).
Proof.
  intros b rows. split; [|split; [reflexivity|split]].
  - intros w. unfold fetch_detail_html, retry, RETRY_ATTEMPTS.
    simpl. unfold fetch_detail_html_attempt. simpl.
    unfold mbind, M_bind, bind, mret, M_ret, ret, try_finally, try_except,
      new_page, goto, close_page, emit, sleep. simpl. by eexists _, _.
  - intros [_ (row & Hrow & Hloc & _)].
    assert (Hempty : (rows !! 2) ≫= (λ row, row !! "Location") = Some "")
      by (vm_compute; reflexivity).
    rewrite Hrow in Hempty. simpl in Hempty. rewrite Hloc in Hempty.
    discriminate Hempty.
  - intros [Hlen _].
    assert (Hthree : List.length (clean_dataframe rows) = 3)
      by (vm_compute; reflexivity).
    rewrite Hthree in Hlen. discriminate Hlen.
Qed.

(** ** The detail fetcher *)

Lemma new_pages_app evs1 evs2 :
  new_pages (evs1 ++ evs2) = new_pages evs1 + new_pages evs2.
Proof. unfold new_pages. by rewrite filter_app, length_app. Qed.

Lemma waits_app evs1 evs2 : waits (evs1 ++ evs2) = waits evs1 ++ waits evs2.
Proof. unfold waits. by rewrite omap_app. Qed.

Lemma fetch_detail_html_attempt_trace b url :
  one_attempt (fetch_detail_html_attempt b url).
Proof.
  intros w. unfold fetch_detail_html_attempt.
  destruct (Py.truthy url); simpl.
  2: { exists []. rewrite app_nil_r. repeat split. unfold new_pages; simpl; lia. }
  unfold mbind, M_bind, bind, mret, M_ret, ret, try_finally, try_except,
    new_page, goto, content, close_page, sleep, emit.
  destruct (new_page_outcome b (List.length w)).
  { exists [NewPage]. repeat split. vm_compute; lia. }
  destruct (goto_outcome b (List.length (w ++ [NewPage])) url).
  { destruct (close_outcome b _);
      exists [NewPage; Goto url DETAIL_TIMEOUT_MS; ClosePage];
      rewrite <- !app_assoc; repeat split; vm_compute; lia. }
  destruct (content_outcome b _ url); destruct (close_outcome b _);
    exists [NewPage; Goto url DETAIL_TIMEOUT_MS; Sleep 100; Content url;
            ClosePage];
    rewrite <- !app_assoc; repeat split; vm_compute; lia.
Qed.

Lemma retrying_trace {A : Type} (f : M A) wait :
  one_attempt f →
  ∀ remaining attempt_number w,
    ∃ evs, (retrying remaining attempt_number wait f w).2 = w ++ evs
           ∧ (new_pages evs ≤ S remaining)%nat
           ∧ waits evs `prefix_of` (wait <$> seq attempt_number remaining).
Proof.
  intros Hf. induction remaining as [|r IH]; intros n w; simpl;
    destruct (Hf w) as (evs & Hevs & Hnew & Hwait);
    destruct (f w) as [[a|e] w1] eqn:Hfw; simpl in Hevs; subst w1.
  - exists evs. rewrite Hwait. split; [done|]. split; [lia|done].
  - exists evs. rewrite Hwait. split; [done|]. split; [lia|done].
  - exists evs. rewrite Hwait. split; [done|]. split; [lia|].
    apply prefix_nil.
  - destruct (IH (S n) ((w ++ evs) ++ [Wait (wait n)]))
      as (evs2 & -> & Hnew2 & Hwait2).
    exists (evs ++ [Wait (wait n)] ++ evs2).
    split; [by rewrite <- !app_assoc|]. split.
    + rewrite !new_pages_app. change (new_pages [Wait (wait n)]) with 0. lia.
    + rewrite !waits_app, Hwait. simpl. by apply prefix_cons.
Qed.

Lemma wait_exponential_bounds n :
  (1 ≤ wait_exponential 1 1 5 n ≤ 5)%Z
  ∧ (wait_exponential 1 1 5 n ≤ wait_exponential 1 1 5 (S n))%Z
  ∧ ((1 ≤ n)%nat → wait_exponential 1 1 5 n = Z.min (2 ^ (Z.of_nat n - 1)) 5).
Proof.
  unfold wait_exponential. repeat split.
  - lia.
  - lia.
  - assert (2 ^ (Z.of_nat n - 1) ≤ 2 ^ (Z.of_nat (S n) - 1))%Z.
    { destruct n as [|n]; [done|].
      apply Z.pow_le_mono_r; lia. }
    lia.
  - intros Hn. assert (1 ≤ 2 ^ (Z.of_nat n - 1))%Z.
    { apply (Z.pow_le_mono_r 2 0); lia. }
    lia.
Qed.

(** C2: [fetch_detail_html] makes at most three attempts, each opening
    one page; the delays it waits between attempts are 1 and then 2
    seconds, the values of the exponential back-off, which doubles from 1
    and never leaves the interval from 1 to 5.  A successful attempt ends
    the call with its result: in particular two failures followed by a
    success return the markup of the third attempt.  Every failure of the
    first or second attempt, timeout or not, is followed by the wait and
    another attempt, and when all three attempts fail the exception of the
    third is raised to the caller. *)
Theorem fetch_detail_html_retries b url :
  let attempt := fetch_detail_html_attempt b url in
  let fetch := fetch_detail_html b url in
  (∀ w, ∃ evs, (fetch w).2 = w ++ evs
               ∧ (new_pages evs ≤ RETRY_ATTEMPTS)%nat
               ∧ waits evs `prefix_of` [1; 2]%Z)
  ∧ (∀ n, (1 ≤ wait_exponential 1 1 5 n ≤ 5)%Z
          ∧ (wait_exponential 1 1 5 n ≤ wait_exponential 1 1 5 (S n))%Z
          ∧ ((1 ≤ n)%nat →
             wait_exponential 1 1 5 n = Z.min (2 ^ (Z.of_nat n - 1)) 5))
  ∧ (∀ w r w1, attempt w = (Ok r, w1) → fetch w = (Ok r, w1))
  ∧ (∀ w e1 w1 r w2,
       attempt w = (Raise e1, w1) →
       attempt (w1 ++ [Wait 1]) = (Ok r, w2) →
       fetch w = (Ok r, w2))
  ∧ (∀ w e1 w1 e2 w2 r w3,
       attempt w = (Raise e1, w1) →
       attempt (w1 ++ [Wait 1]) = (Raise e2, w2) →
       attempt (w2 ++ [Wait 2]) = (Ok r, w3) →
       fetch w = (Ok r, w3))
  ∧ (∀ w e1 w1 e2 w2 e3 w3,
       attempt w = (Raise e1, w1) →
       attempt (w1 ++ [Wait 1]) = (Raise e2, w2) →
       attempt (w2 ++ [Wait 2]) = (Raise e3, w3) →
       fetch w = (Raise e3, w3)).
Proof.
  intros attempt fetch. split; [|split; [apply wait_exponential_bounds|]].
  - intros w. apply (retrying_trace attempt (wait_exponential 1 1 5)
                       (fetch_detail_html_attempt_trace b url) 2 1 w).
  - subst fetch. unfold fetch_detail_html, retry, RETRY_ATTEMPTS. simpl.
    fold attempt. repeat split.
    + intros w r w1 H1. by rewrite H1.
    + intros w e1 w1 r w2 H1 H2. rewrite H1.
      change (wait_exponential 1 1 5 1) with 1%Z. by rewrite H2.
    + intros w e1 w1 e2 w2 r w3 H1 H2 H3. rewrite H1.
      change (wait_exponential 1 1 5 1) with 1%Z. rewrite H2.
      change (wait_exponential 1 1 5 2) with 2%Z. by rewrite H3.
    + intros w e1 w1 e2 w2 e3 w3 H1 H2 H3. rewrite H1.
      change (wait_exponential 1 1 5 1) with 1%Z. rewrite H2.
      change (wait_exponential 1 1 5 2) with 2%Z. by rewrite H3.
Qed.

Lemma fetch_detail_html_retries_witness :
  (∃ w, fetch_detail_html (Fixture.flaky_until 6) "jobs/a" []
        = (Ok (Some "jobs/a"), w)
        ∧ new_pages w = 3 ∧ waits w = [1; 2]%Z)
  ∧ (∃ w, fetch_detail_html (Fixture.flaky_until 100) "jobs/a" []
          = (Raise (PlaywrightError "net::ERR_FAILED"), w)
          ∧ new_pages w = 3 ∧ waits w = [1; 2]%Z).
Proof.
  split.
  - eexists. split.
    + eapply (proj1 (proj2 (proj2 (proj2 (proj2
                (fetch_detail_html_retries (Fixture.flaky_until 6) "jobs/a"))))));
        reflexivity.
    + split; reflexivity.
  - eexists. split.
    + eapply (proj2 (proj2 (proj2 (proj2 (proj2
                (fetch_detail_html_retries (Fixture.flaky_until 100) "jobs/a"))))));
        reflexivity.
    + split; reflexivity.
Defined.

(** ** The pagination walker *)

Section Walker.
Variable html_parser : string -> result (list Soup.node).
Variable urljoin : string -> string -> result string.
Variable b : browser.

Lemma page_body_goto_fails st url w e :
  goto_outcome b (List.length w) url = Some e →
  page_body html_parser urljoin b st url w
  = (Ok (Break st), w ++ [Goto url NAV_TIMEOUT_MS]).
Proof.
  intros Hgoto. unfold page_body.
  unfold mbind, M_bind, bind, mret, M_ret, ret, try_except, goto, emit.
  rewrite Hgoto. by destruct e.
Qed.

Lemma page_body_continue st url w st1 w1 :
  page_body html_parser urljoin b st url w = (Ok (Continue st1), w1) →
  ∃ jobs_on_page, all_jobs st1 = all_jobs st ++ jobs_on_page.
Proof.
  unfold page_body.
  unfold mbind, M_bind, bind, mret, M_ret, ret, try_except, goto, emit,
    content, lift, sleep.
  destruct (goto_outcome b (List.length w) url) as [e|].
  { destruct e; simpl; intros [=]. }
  simpl. destruct (content_outcome b _ url) as [html|]; [|intros [=]].
  destruct (parse_jobs_from_page html_parser urljoin html) as [jobs|];
    [|intros [=]].
  destruct (BeautifulSoup html_parser html) as [soup|]; [|intros [=]].
  destruct (next_url urljoin soup) as [[t|]|];
    intros [= <- _]; by exists jobs.
Qed.

Lemma pagination_after_walks n st0 w0 st w :
  walks html_parser urljoin b n st0 w0 st w →
  ∀ fuel, pagination html_parser urljoin b (n + fuel) st0 w0
          = pagination html_parser urljoin b fuel st w.
Proof.
  induction 1 as [|n st url w st1 w1 st2 w2 Hurl Htruthy Hbody _ IH];
    intros fuel; [done|].
  simpl. rewrite Hurl, Htruthy.
  unfold mbind, M_bind, bind at 1. rewrite Hbody. apply IH.
Qed.

Lemma walks_keep_jobs n st0 w0 st w :
  walks html_parser urljoin b n st0 w0 st w →
  all_jobs st0 `prefix_of` all_jobs st.
Proof.
  induction 1 as [|n st url w st1 w1 st2 w2 _ _ Hbody _ IH]; [done|].
  destruct (page_body_continue _ _ _ _ _ Hbody) as (jobs & Hjobs).
  etrans; [|exact IH]. rewrite Hjobs. by apply prefix_app_r.
Qed.
End Walker.

(** C9: when, after any number of list pages walked, the navigation to
    the next list page times out or raises, the pagination loop ends
    normally with the records collected so far, having tried that page
    exactly once (one [Goto] event is all it adds to the run); the records
    known before the walk are still there, and [main] goes on to enrich
    exactly the records collected, returning a table unless the later
    phases themselves raise. *)
Theorem pagination_stops_on_navigation_failure
  html_parser urljoin b n st0 w0 st w url e fuel :
  walks html_parser urljoin b n st0 w0 st w →
  next_page_url st = Some url →
  Py.truthy url = true →
  goto_outcome b (List.length w) url = Some e →
  (n < fuel)%nat →
  let stopped := w ++ [Goto url NAV_TIMEOUT_MS] in
  pagination html_parser urljoin b fuel st0 w0 = (Ok (Some st), stopped)
  ∧ all_jobs st0 `prefix_of` all_jobs st
  ∧ (∀ w00,
       new_page_outcome b (List.length w00) = None →
       w0 = w00 ++ [NewPage] →
       st0 = {| next_page_url := Some BASE_URL; page_index := 1;
                all_jobs := [] |} →
       main html_parser urljoin b fuel w00
       = match after_pagination html_parser b (all_jobs st) stopped with
         | (Ok df, w') => (Ok (Some df), w')
         | (Raise e', w') => (Raise e', w')
         end).
Proof.
  intros Hwalks Hurl Htruthy Hgoto Hfuel stopped.
  assert (Hloop : pagination html_parser urljoin b fuel st0 w0
                  = (Ok (Some st), stopped)).
  { replace fuel with (n + S (fuel - S n)) by lia.
    rewrite (pagination_after_walks _ _ _ _ _ _ _ _ Hwalks).
    simpl. rewrite Hurl, Htruthy.
    unfold mbind, M_bind, bind at 1.
    by rewrite (page_body_goto_fails _ _ _ _ _ _ e Hgoto). }
  split; [exact Hloop|]. split; [by eapply walks_keep_jobs|].
  intros w00 Hnew -> ->. unfold main.
  unfold mbind, M_bind, bind at 1. unfold new_page, emit at 1. rewrite Hnew.
  unfold bind at 1. rewrite Hloop. unfold bind, mret, M_ret, ret.
  by destruct (after_pagination html_parser b (all_jobs st) stopped) as [[?|?] ?].
Qed.

Lemma run_continues d (m : result flow * world) :
  continues m = true → m = (Ok (Continue (continued d m)), m.2).
Proof. by destruct m as [[[st|st]|e] w]. Qed.

Lemma pagination_stops_on_navigation_failure_witness :
  ∃ df w,
    main Fixture.html_parser Fixture.urljoin
      (Fixture.unreachable Fixture.page2) 5 [] = (Ok (Some df), w)
    ∧ List.length df = 2
    ∧ List.length (filter (λ ev, ev = Goto Fixture.page2 NAV_TIMEOUT_MS) w) = 1.
Proof.
  set (b := Fixture.unreachable Fixture.page2).
  set (st0 := {| next_page_url := Some BASE_URL; page_index := 1;
                 all_jobs := [] |}).
  pose (first := page_body Fixture.html_parser Fixture.urljoin b st0 BASE_URL
                   [NewPage]).
  assert (Hbody : first = (Ok (Continue (continued st0 first)), first.2))
    by (apply run_continues; vm_compute; reflexivity).
  assert (Hwalks : walks Fixture.html_parser Fixture.urljoin b 1 st0
                     [NewPage] (continued st0 first) first.2).
  { eapply walks_next; [reflexivity|reflexivity|exact Hbody|constructor]. }
  assert (Hurl : next_page_url (continued st0 first) = Some Fixture.page2)
    by (vm_compute; reflexivity).
  assert (Hgoto : goto_outcome b (List.length first.2) Fixture.page2
                  = Some (pwTimeout "Timeout exceeded"))
    by (vm_compute; reflexivity).
  destruct (pagination_stops_on_navigation_failure _ _ _ _ _ _ _ _ _ _ 5
              Hwalks Hurl eq_refl Hgoto ltac:(lia)) as (_ & _ & Hmain).
  specialize (Hmain [] eq_refl eq_refl eq_refl).
  eexists _, _. split; [rewrite Hmain; vm_compute; reflexivity|].
  split; vm_compute; reflexivity.
Defined.

(** * More of the program *)

(** ** Reasoning about the events of a run *)

Section Traces.
Variable Q : list event -> Prop.
Hypothesis Q_nil : Q [].
Hypothesis Q_app : ∀ evs1 evs2, Q evs1 → Q evs2 → Q (evs1 ++ evs2).

Lemma traces_ret {A : Type} (a : A) : traces Q (mret a).
Proof. intros w. exists []. by rewrite app_nil_r. Qed.

Lemma traces_lift {A : Type} (r : result A) : traces Q (lift r).
Proof. intros w. exists []. by rewrite app_nil_r. Qed.

Lemma traces_emit ev outcome : Q [ev] → traces Q (emit ev outcome).
Proof. intros Hev w. by exists [ev]. Qed.

Lemma traces_bind {A B : Type} (m : M A) (k : A -> M B) :
  traces Q m → (∀ a, traces Q (k a)) → traces Q (m ≫= k).
Proof.
  intros Hm Hk w. unfold mbind, M_bind, bind.
  destruct (Hm w) as (evs1 & H1 & HQ1).
  destruct (m w) as [[a|e] w1]; simpl in H1; subst w1.
  - destruct (Hk a (w ++ evs1)) as (evs2 & H2 & HQ2).
    exists (evs1 ++ evs2). rewrite H2, app_assoc. auto.
  - by exists evs1.
Qed.

Lemma traces_try_except {A : Type} (m : M A) (h : exn -> M A) :
  traces Q m → (∀ e, traces Q (h e)) → traces Q (try_except m h).
Proof.
  intros Hm Hh w. unfold try_except.
  destruct (Hm w) as (evs1 & H1 & HQ1).
  destruct (m w) as [[a|e] w1]; simpl in H1; subst w1.
  - by exists evs1.
  - destruct (Hh e (w ++ evs1)) as (evs2 & H2 & HQ2).
    exists (evs1 ++ evs2). rewrite H2, app_assoc. auto.
Qed.

Lemma traces_try_finally {A : Type} (m : M A) (cleanup : M unit) :
  traces Q m → traces Q cleanup → traces Q (try_finally m cleanup).
Proof.
  intros Hm Hc w. unfold try_finally.
  destruct (Hm w) as (evs1 & H1 & HQ1).
  destruct (m w) as [r w1]; simpl in H1; subst w1.
  destruct (Hc (w ++ evs1)) as (evs2 & H2 & HQ2).
  destruct (cleanup (w ++ evs1)) as [[[]|e] w2]; simpl in H2; subst w2;
    exists (evs1 ++ evs2); rewrite app_assoc; auto.
Qed.

Lemma traces_retrying {A : Type} (f : M A) wait :
  (∀ n, Q [Wait (wait n)]) → traces Q f →
  ∀ remaining attempt_number,
    traces Q (retrying remaining attempt_number wait f).
Proof.
  intros Hwait Hf. induction remaining as [|r IH]; intros n w; simpl;
    destruct (Hf w) as (evs & Hevs & HQ);
    destruct (f w) as [[a|e] w1]; simpl in Hevs; subst w1;
    try (by exists evs).
  destruct (IH (S n) ((w ++ evs) ++ [Wait (wait n)])) as (evs2 & -> & HQ2).
  exists (evs ++ [Wait (wait n)] ++ evs2).
  split; [by rewrite <- !app_assoc|]. auto.
Qed.
End Traces.

(** ** More on the detail fetcher *)


Lemma retrying_ext {A : Type} (f g : M A) wait :
  (∀ w, f w = g w) →
  ∀ remaining attempt_number w,
    retrying remaining attempt_number wait f w
    = retrying remaining attempt_number wait g w.
Proof.
  intros Hfg. induction remaining as [|r IH]; intros n w; simpl;
    rewrite Hfg; destruct (g w) as [[a|e] w1]; auto.
Qed.

(** The events of one attempt on a non-empty URL, by the call that
    failed. *)
Lemma fetch_detail_html_attempt_events b url w :
  Py.truthy url = true →
  let after := (fetch_detail_html_attempt b url w).2 in
  match new_page_outcome b (List.length w) with
  | Some _ => after = w ++ [NewPage]
  | None =>
      match goto_outcome b (S (List.length w)) url with
      | Some _ => after = w ++ [NewPage; Goto url DETAIL_TIMEOUT_MS; ClosePage]
      | None =>
          after = w ++ [NewPage; Goto url DETAIL_TIMEOUT_MS; Sleep 100;
                        Content url; ClosePage]
      end
  end.
Proof.
  intros Hurl. unfold fetch_detail_html_attempt. rewrite Hurl. simpl.
  unfold mbind, M_bind, bind, mret, M_ret, ret, try_finally, try_except,
    new_page, goto, content, close_page, sleep, emit.
  destruct (new_page_outcome b (List.length w)); [done|].
  rewrite length_app. simpl. rewrite Nat.add_1_r.
  destruct (goto_outcome b (S (List.length w)) url).
  { destruct (close_outcome b _); simpl; by rewrite <- !app_assoc. }
  destruct (content_outcome b _ url); destruct (close_outcome b _); simpl;
    by rewrite <- !app_assoc.
Qed.

(** X1: [fetch_detail_html] answers an empty URL with [None] at once: no
    page is opened, nothing is waited for and the world is left as it was,
    whatever the browser would do.  For any other URL the first thing it
    does is to open a page. *)
Theorem fetch_detail_html_empty_url b w :
  fetch_detail_html b "" w = (Ok None, w)
  ∧ ∀ url, url ≠ "" →
      ∃ evs, (fetch_detail_html b url w).2 = w ++ NewPage :: evs.
Proof.
  split; [reflexivity|].
  intros url Hurl. apply truthy_true in Hurl.
  unfold fetch_detail_html, retry, RETRY_ATTEMPTS. simpl.
  pose proof (fetch_detail_html_attempt_events b url w Hurl) as Hev.
  simpl in Hev.
  assert (Hfirst : ∃ evs, (fetch_detail_html_attempt b url w).2
                          = w ++ NewPage :: evs).
  { destruct (new_page_outcome b _); [by eexists|].
    destruct (goto_outcome b _ url); by eexists. }
  destruct Hfirst as (evs & Hfirst).
  destruct (fetch_detail_html_attempt b url w) as [[r|e] w1]; simpl in Hfirst;
    subst w1; [by eexists|].
  pose proof (retrying_trace (fetch_detail_html_attempt b url)
                (wait_exponential 1 1 5)
                (fetch_detail_html_attempt_trace b url) 1 2
                ((w ++ NewPage :: evs) ++ [Wait (wait_exponential 1 1 5 1)]))
    as (evs2 & Hrest & _).
  simpl in Hrest. rewrite Hrest. rewrite <- !app_assoc. simpl. by eexists.
Qed.

Lemma fetch_detail_html_empty_url_witness :
  ∃ evs, (fetch_detail_html (Fixture.flaky_until 6) "jobs/a" []).2
         = [] ++ NewPage :: evs.
Proof.
  apply (proj2 (fetch_detail_html_empty_url (Fixture.flaky_until 6) [])).
  discriminate.
Defined.

(** X2: one attempt of [fetch_detail_html] on a non-empty URL, once its
    page is open, closes that page on every path, whether the navigation
    failed, the capture failed or the markup was returned: the events it
    adds are the opening of the page, then events that neither open nor
    close a page, then exactly one close, last. *)
Theorem fetch_detail_html_attempt_closes_page b url w :
  url ≠ "" →
  new_page_outcome b (List.length w) = None →
  ∃ evs, (fetch_detail_html_attempt b url w).2
         = w ++ [NewPage] ++ evs ++ [ClosePage]
         ∧ (NewPage ∉ evs) ∧ (ClosePage ∉ evs).
Proof.
  intros Hurl Hnew. apply truthy_true in Hurl.
  pose proof (fetch_detail_html_attempt_events b url w Hurl) as Hev.
  simpl in Hev. rewrite Hnew in Hev.
  destruct (goto_outcome b _ url).
  - exists [Goto url DETAIL_TIMEOUT_MS]. split; [done|].
    split; intros H; apply list_elem_of_singleton in H; discriminate H.
  - exists [Goto url DETAIL_TIMEOUT_MS; Sleep 100; Content url].
    split; [done|].
    split; intros H; repeat (apply elem_of_cons in H as [H|H];
                             [discriminate H|]); by apply elem_of_nil in H.
Qed.

Lemma fetch_detail_html_attempt_closes_page_witness :
  ∃ evs, (fetch_detail_html_attempt (Fixture.flaky_until 6) "jobs/a" []).2
         = [] ++ [NewPage] ++ evs ++ [ClosePage]
         ∧ (NewPage ∉ evs) ∧ (ClosePage ∉ evs).
Proof.
  apply fetch_detail_html_attempt_closes_page; [discriminate|reflexivity].
Defined.



(** X4: a failure of [page.close()] is swallowed: the result of
    [fetch_detail_html] and everything it does to the browser are the same
    whatever the close calls answer. *)
Theorem fetch_detail_html_ignores_close_failure b c url w :
  fetch_detail_html (with_close b c) url w = fetch_detail_html b url w.
Proof.
  apply retrying_ext. clear w. intros w.
  unfold fetch_detail_html_attempt. destruct (Py.truthy url); [|done]. simpl.
  unfold mbind, M_bind, bind, mret, M_ret, ret, try_finally, try_except,
    new_page, goto, content, close_page, sleep, emit. simpl.
  destruct (new_page_outcome b (List.length w)); [done|].
  destruct (goto_outcome b _ url).
  { by destruct (c _), (close_outcome b _). }
  destruct (content_outcome b _ url); by destruct (c _), (close_outcome b _).
Qed.

(** ** More on strings *)

Lemma append_cons c (a b : string) : String c a +:+ b = String c (a +:+ b).
Proof. reflexivity. Qed.

Lemma append_assoc (a b c : string) : (a +:+ b) +:+ c = a +:+ (b +:+ c).
Proof.
  induction a as [|x a IH]; [done|]. by rewrite !append_cons, IH.
Qed.

Lemma append_nonempty (a b : string) : a ≠ "" → a +:+ b ≠ "".
Proof. by destruct a. Qed.

Lemma append_nonempty_r (a b : string) : b ≠ "" → a +:+ b ≠ "".
Proof. by destruct a, b. Qed.

Lemma lstrip_length s : (String.length (Py.lstrip s) ≤ String.length s)%nat.
Proof.
  induction s as [|c s IH]; simpl; [lia|].
  destruct (Py.isspace c); simpl; lia.
Qed.

Lemma lstrip_fixed_head c s :
  Py.lstrip (String c s) = String c s → Py.isspace c = false.
Proof.
  simpl. destruct (Py.isspace c); [|done]. intros H.
  pose proof (lstrip_length s) as Hlen. rewrite H in Hlen. simpl in Hlen. lia.
Qed.

Lemma lstrip_append a b :
  a ≠ "" → Py.lstrip a = a → Py.lstrip (a +:+ b) = a +:+ b.
Proof.
  destruct a as [|c a]; [done|]. intros _ H.
  apply lstrip_fixed_head in H. rewrite append_cons. simpl. by rewrite H.
Qed.

Lemma rstrip_append a b :
  b ≠ "" → Py.rstrip b = b → Py.rstrip (a +:+ b) = a +:+ b.
Proof.
  intros Hb H. induction a as [|c a IH]; [done|].
  rewrite append_cons. simpl. rewrite IH. destruct (a +:+ b) eqn:E.
  - by apply (append_nonempty_r a b) in Hb.
  - simpl. by rewrite andb_false_r.
Qed.

Lemma strip_fixed s :
  Py.strip s = s ↔ Py.lstrip s = s ∧ Py.rstrip s = s.
Proof.
  unfold Py.strip. split.
  - intros H. split.
    + rewrite <- H at 1. by rewrite lstrip_idem.
    + rewrite <- H at 1. by rewrite lstrip_rstrip, rstrip_idem, <- lstrip_rstrip.
  - intros [Hl Hr]. by rewrite Hr.
Qed.

Lemma strip_append a b :
  a ≠ "" → b ≠ "" → Py.strip a = a → Py.strip b = b →
  ∀ mid, Py.strip (a +:+ mid +:+ b) = a +:+ mid +:+ b.
Proof.
  intros Ha Hb Hsa Hsb mid. apply strip_fixed in Hsa as [Hla _].
  apply strip_fixed in Hsb as [_ Hrb]. apply strip_fixed. split.
  - by apply lstrip_append.
  - rewrite <- append_assoc. by apply rstrip_append.
Qed.

Lemma join_nonempty sep l :
  l ≠ [] → Forall (λ s, s ≠ "") l → Py.join sep l ≠ "".
Proof.
  destruct l as [|s l]; [done|]. intros _ H.
  apply Forall_cons_1 in H as [Hs _]. destruct l; [done|].
  change (Py.join sep (s :: s0 :: l))
    with (s +:+ sep +:+ Py.join sep (s0 :: l)).
  by apply append_nonempty.
Qed.

Lemma join_trimmed sep l :
  Forall (λ s, s ≠ "" ∧ Py.strip s = s) l →
  Py.strip (Py.join sep l) = Py.join sep l.
Proof.
  induction l as [|s l IH]; intros H; [done|].
  apply Forall_cons_1 in H as [[Hs Hss] Hl].
  destruct l as [|s2 l]; [done|].
  change (Py.join sep (s :: s2 :: l))
    with (s +:+ sep +:+ Py.join sep (s2 :: l)).
  apply strip_append; [done| |done|by apply IH].
  apply join_nonempty; [done|].
  eapply Forall_impl; [exact Hl|]. by intros ? [? _].
Qed.

Lemma get_text_trimmed sep e :
  Py.strip (Soup.get_text sep true e) = Soup.get_text sep true e.
Proof.
  unfold Soup.get_text. apply join_trimmed.
  apply Forall_forall. intros s Hs.
  apply list_elem_of_filter in Hs as [Htruthy Hs].
  apply list_elem_of_fmap in Hs as (t & -> & _).
  split; [by apply truthy_true|apply strip_idem].
Qed.

(** ** More on the markup extractor *)

(** The record of a card that was parsed, field by field. *)
Lemma parse_card_fields urljoin soup card job :
  parse_card urljoin soup card = Ok job →
  ∃ date logo href detail_url logo_url,
    job = <["Job Title" := text_or_empty (Soup.select_one sel_title card)]>
          (<["Company Name" :=
               text_or_empty (Soup.select_one sel_company card)]>
          (<["Job Detail URL" := detail_url]>
          (<["Date Posted" := date]>
          (<["Logo URL" := logo_url]> ∅))))
    ∧ attr_or_empty (Soup.select_one sel_date card) "datetime" = Ok date
    ∧ attr_or_empty (Soup.select_one sel_logo card) "src" = Ok logo
    ∧ attr_or_empty (Soup.find_next soup card "a" "Apply") "href" = Ok href
    ∧ Py.strip date = date
    ∧ (if Py.truthy href then urljoin BASE_URL href else Ok "")
      = Ok detail_url
    ∧ (if Py.truthy logo then urljoin BASE_URL logo else Ok "")
      = Ok logo_url.
Proof.
  intros Hjob.
  destruct (parse_card_outcome urljoin soup card)
    as (date & logo & href & Hdate & Hlogo & Hhref & Hd & Hcard & _).
  rewrite Hcard in Hjob.
  destruct (if Py.truthy href then urljoin BASE_URL href else Ok "")
    as [detail_url|] eqn:Hdetail; simpl in Hjob; [|done].
  destruct (if Py.truthy logo then urljoin BASE_URL logo else Ok "")
    as [logo_url|] eqn:Hlogo_url; simpl in Hjob; [|done].
  injection Hjob as <-. by exists date, logo, href, detail_url, logo_url.
Qed.

Lemma parse_jobs_from_page_each html_parser urljoin html jobs :
  parse_jobs_from_page html_parser urljoin html = Ok jobs →
  ∃ soup,
    BeautifulSoup html_parser html = Ok soup
    ∧ Forall2 (λ card job, parse_card urljoin soup card = Ok job)
        (Soup.select sel_card soup) jobs.
Proof.
  unfold parse_jobs_from_page.
  destruct (BeautifulSoup html_parser html) as [soup|]; [|done]. simpl.
  intros Hjobs. exists soup. split; [done|].
  by destruct (parse_cards_each _ _ _ _ _ Hjobs) as (new & -> & Hall).
Qed.

Lemma parse_job_details_shape html_parser html details :
  parse_job_details html_parser html = Ok details →
  ∃ location description,
    details = <["Location" := location]>
              (<["Job Description" := description]> ∅).
Proof.
  destruct html as [text|]; [|intros [= <-]; by exists "", ""].
  destruct (Py.truthy text) eqn:Htruthy.
  - destruct (BeautifulSoup html_parser text) as [soup|e] eqn:Hsoup.
    + rewrite (parse_job_details_spec html_parser text soup Htruthy Hsoup).
      intros [= <-]. by eexists _, _.
    + unfold parse_job_details. by rewrite Htruthy, Hsoup.
  - apply truthy_false in Htruthy as ->. intros [= <-]. by exists "", "".
Qed.

(** X5: [parse_job_details] and its defaults.  Without markup ([None] or
    the empty string) it returns the record with both fields empty,
    whatever the parser would do.  With markup, it raises what the parser
    raises when the parser rejects the markup; otherwise it returns a
    record made of the two fields Location and Job Description, in which a
    missing location element gives an empty Location and a missing
    description element an empty Job Description. *)
Theorem parse_job_details_defaults html_parser :
  parse_job_details html_parser None = Ok no_details
  ∧ parse_job_details html_parser (Some "") = Ok no_details
  ∧ (∀ text e,
       text ≠ "" → html_parser text = Raise e →
       parse_job_details html_parser (Some text) = Raise e)
  ∧ (∀ text soup,
       text ≠ "" → BeautifulSoup html_parser text = Ok soup →
       ∃ location description,
         parse_job_details html_parser (Some text)
         = Ok (<["Location" := location]>
               (<["Job Description" := description]> ∅))
         ∧ (Soup.select_one sel_location soup = None → location = "")
         ∧ (Soup.select_one sel_description soup = None →
            description = "")).
Proof.
  split; [done|]. split; [done|]. split.
  - intros text e Htext. apply truthy_true in Htext.
    by apply parse_job_details_rejected.
  - intros text soup Htext Hsoup. apply truthy_true in Htext.
    pose proof (parse_job_details_spec html_parser text soup Htext Hsoup)
      as Hspec.
    cbv zeta beta in Hspec. eexists _, _. split; [exact Hspec|].
    split; by intros ->.
Qed.

Lemma parse_job_details_defaults_witness :
  (∃ details,
     parse_job_details (λ _, Ok Samples.no_location_page) (Some "detail")
     = Ok details
     ∧ details !! "Location" = Some "")
  ∧ parse_job_details Fixture.html_parser (Some "<![foo bar]>")
    = Raise (ParserRejectedMarkup "The markup cannot be parsed").
Proof.
  split.
  - set (html_parser := λ _ : string, Ok Samples.no_location_page).
    destruct (proj2 (proj2 (proj2 (parse_job_details_defaults html_parser)))
                "detail" (Soup.document Samples.no_location_page)
                ltac:(discriminate) eq_refl)
      as (location & description & Hparse & Hloc & _).
    assert (Hl : location = "") by (apply Hloc; vm_compute; reflexivity).
    subst location. eexists. split; [exact Hparse|]. reflexivity.
  - apply (proj1 (proj2 (proj2 (parse_job_details_defaults
                                  Fixture.html_parser))));
      [discriminate|reflexivity].
Defined.

Lemma text_or_empty_trimmed el :
  Py.strip (text_or_empty el) = text_or_empty el.
Proof. destruct el; [apply get_text_trimmed|done]. Qed.

(** X6: every text the extractors take from the markup is trimmed: each
    field of the record of [parse_job_details], and the Job Title, Company
    Name and Date Posted of every record of [parse_jobs_from_page], is left
    unchanged by [strip].  (The two URL fields are results of [urljoin] and
    are not covered.) *)
Theorem extracted_text_is_trimmed html_parser :
  (∀ html details k v,
     parse_job_details html_parser html = Ok details →
     details !! k = Some v → Py.strip v = v)
  ∧ (∀ urljoin html jobs job k v,
       parse_jobs_from_page html_parser urljoin html = Ok jobs →
       job ∈ jobs →
       k ∈ ["Job Title"; "Company Name"; "Date Posted"] →
       job !! k = Some v → Py.strip v = v).
Proof.
  split.
  - intros html details k v Hparse Hk.
    assert (Hdefault : ∀ k v, no_details !! k = Some v → Py.strip v = v).
    { intros k' v' H. unfold no_details in H.
      apply lookup_insert_Some in H as [[_ <-]|[_ H]]; [done|].
      apply lookup_insert_Some in H as [[_ <-]|[_ H]]; [done|].
      by rewrite lookup_empty in H. }
    destruct html as [text|]; [|injection Hparse as <-; eauto].
    destruct (Py.truthy text) eqn:Htruthy.
    2: { apply truthy_false in Htruthy as ->. injection Hparse as <-. eauto. }
    destruct (BeautifulSoup html_parser text) as [soup|e] eqn:Hsoup.
    2: { unfold parse_job_details in Hparse.
         by rewrite Htruthy, Hsoup in Hparse. }
    rewrite (parse_job_details_spec html_parser text soup Htruthy Hsoup)
      in Hparse.
    injection Hparse as <-.
    apply lookup_insert_Some in Hk as [[_ <-]|[_ Hk]].
    { destruct (Py.startswith _ _); [apply strip_idem|].
      destruct (Soup.select_one sel_location _); [apply get_text_trimmed|done]. }
    apply lookup_insert_Some in Hk as [[_ <-]|[_ Hk]].
    { destruct (Soup.select_one sel_description _);
        [apply get_text_trimmed|done]. }
    by rewrite lookup_empty in Hk.
  - intros urljoin html jobs job k v Hparse Hjob Hk Hv.
    apply parse_jobs_from_page_each in Hparse as (soup & _ & Hparse).
    apply list_elem_of_lookup in Hjob as (i & Hi).
    destruct (Forall2_lookup_r _ _ _ _ _ Hparse Hi) as (card & _ & Hcard).
    destruct (parse_card_fields urljoin soup card job Hcard)
      as (date & logo & href & detail_url & logo_url & -> & _ & _ & _
          & Hdate & _).
    repeat (apply elem_of_cons in Hk as [->|Hk]);
      [| | |by apply elem_of_nil in Hk];
      simplify_map_eq; auto using text_or_empty_trimmed.
Qed.

Lemma extracted_text_is_trimmed_witness :
  let jobs := value_of [] (parse_jobs_from_page Fixture.html_parser
                             Fixture.urljoin "LIST 1") in
  let title := default "" (default ∅ (jobs !! 0) !! "Job Title") in
  title = "Senior Python Developer" ∧ Py.strip title = title.
Proof.
  intros jobs title. split; [vm_compute; reflexivity|].
  apply (proj2 (extracted_text_is_trimmed Fixture.html_parser)
           Fixture.urljoin "LIST 1" jobs (default ∅ (jobs !! 0))
           "Job Title" title).
  - apply result_Ok. vm_compute. reflexivity.
  - apply list_elem_of_lookup. exists 0.
    apply option_default. vm_compute. reflexivity.
  - apply elem_of_cons. by left.
  - apply option_default. vm_compute. reflexivity.
Defined.

(** X7: the records have fixed keys.  Every record [parse_jobs_from_page]
    returns has exactly the five summary keys, and the record
    [parse_job_details] returns has exactly the two detail keys.  The
    enrichment phase always returns, each of its rows has exactly the seven
    column keys, and so the table built from the rows has no missing
    cell. *)
Theorem records_have_fixed_keys html_parser :
  (∀ urljoin html jobs,
     parse_jobs_from_page html_parser urljoin html = Ok jobs →
     Forall (λ job : gmap string string,
               dom job = (list_to_set SUMMARY_KEYS : gset string)) jobs)
  ∧ (∀ html (details : gmap string string),
       parse_job_details html_parser html = Ok details →
       dom details = (list_to_set DETAIL_KEYS : gset string))
  ∧ (∀ b jobs w,
       ∃ rows w',
         enrichment html_parser b jobs [] w = (Ok rows, w')
         ∧ Forall (λ row : gmap string string,
                     dom row = (list_to_set COLUMNS : gset string)) rows
         ∧ Forall (Forall is_Some) (DataFrame_of rows COLUMNS)).
Proof.
  split; [|split].
  - intros urljoin html jobs Hparse.
    apply parse_jobs_from_page_each in Hparse as (soup & _ & Hall).
    apply Forall_forall. intros job Hjob.
    apply list_elem_of_lookup in Hjob as (i & Hi).
    destruct (Forall2_lookup_r _ _ _ _ _ Hall Hi) as (card & _ & Hcard).
    destruct (parse_card_fields urljoin soup card job Hcard)
      as (date & logo & href & detail_url & logo_url & -> & _).
    rewrite !dom_insert_L, dom_empty_L. unfold SUMMARY_KEYS. simpl.
    set_solver.
  - intros html details Hparse.
    destruct (parse_job_details_shape html_parser html details Hparse)
      as (location & description & ->).
    rewrite !dom_insert_L, dom_empty_L. unfold DETAIL_KEYS. simpl.
    set_solver.
  - intros b jobs w.
    destruct (enrichment_total html_parser b jobs w) as (rows & w' & H & HF).
    exists rows, w'. split; [apply (H [])|].
    assert (Hdom : Forall (λ row : gmap string string,
                     dom row = (list_to_set COLUMNS : gset string)) rows).
    { apply Forall_forall. intros row Hrow.
      apply list_elem_of_lookup in Hrow as (i & Hi).
      destruct (Forall2_lookup_r _ _ _ _ _ HF Hi) as (job & _ & details & ->).
      unfold cleaned. rewrite !dom_insert_L, dom_empty_L.
      unfold COLUMNS. simpl. set_solver. }
    split; [exact Hdom|].
    unfold DataFrame_of. apply Forall_forall. intros cells Hcells.
    apply list_elem_of_fmap in Hcells as (row & -> & Hrow).
    rewrite Forall_forall in Hdom. specialize (Hdom row Hrow).
    apply Forall_forall. intros cell Hcell.
    apply list_elem_of_fmap in Hcell as (c & -> & Hc).
    apply elem_of_dom. rewrite Hdom. by apply elem_of_list_to_set.
Qed.

Lemma filter_none {A : Type} (P : A → Prop) `{∀ x, Decision (P x)} l :
  Forall (λ x, ¬ P x) l → filter P l = [].
Proof.
  induction 1 as [|x l Hx _ IH]; [done|].
  by rewrite filter_cons, decide_False.
Qed.

Lemma find_next_skips soup c1 c2 :
  (Soup.el_index c1 ≤ Soup.el_index c2)%nat →
  Forall (λ x, ¬ is_apply_link x)
    (take (Soup.el_index c2 - Soup.el_index c1)
       (drop (Soup.el_index c1) (Soup.descendants soup))) →
  Soup.find_next soup c1 "a" "Apply" = Soup.find_next soup c2 "a" "Apply".
Proof.
  intros Hle Hnone. unfold Soup.find_next.
  rewrite <- (take_drop (Soup.el_index c2 - Soup.el_index c1)
                (drop (Soup.el_index c1) (Soup.descendants soup))).
  rewrite filter_app, drop_drop.
  replace (Soup.el_index c1 + (Soup.el_index c2 - Soup.el_index c1))
    with (Soup.el_index c2) by lia.
  by rewrite (filter_none _ _ Hnone).
Qed.

(** X8: the detail link of a card is searched in the whole document after
    the card, not inside the card: when no Apply link stands between a card
    [c1] and a later element [c2] in document order, the search gives the
    same link for both, so the records of both, when they are returned,
    have the same Job Detail URL; and they are returned when [urljoin]
    returns on the links of the two.  A card without an Apply link of its
    own so takes the link of the next card that has one. *)
Theorem detail_link_is_next_apply_link urljoin soup c1 c2 :
  (Soup.el_index c1 ≤ Soup.el_index c2)%nat →
  Forall (λ x, ¬ is_apply_link x)
    (take (Soup.el_index c2 - Soup.el_index c1)
       (drop (Soup.el_index c1) (Soup.descendants soup))) →
  Soup.find_next soup c1 "a" "Apply" = Soup.find_next soup c2 "a" "Apply"
  ∧ (∀ job1 job2,
       parse_card urljoin soup c1 = Ok job1 →
       parse_card urljoin soup c2 = Ok job2 →
       job1 !! "Job Detail URL" = job2 !! "Job Detail URL")
  ∧ ((∀ url, url ∈ card_links soup c1 ++ card_links soup c2 →
             is_Ok (urljoin BASE_URL url) = true) →
     ∃ job1 job2,
       parse_card urljoin soup c1 = Ok job1
       ∧ parse_card urljoin soup c2 = Ok job2
       ∧ job1 !! "Job Detail URL" = job2 !! "Job Detail URL").
Proof.
  intros Hle Hnone.
  pose proof (find_next_skips soup c1 c2 Hle Hnone) as Hsame.
  assert (Hrecords : ∀ job1 job2,
            parse_card urljoin soup c1 = Ok job1 →
            parse_card urljoin soup c2 = Ok job2 →
            job1 !! "Job Detail URL" = job2 !! "Job Detail URL").
  { intros job1 job2 H1 H2.
    destruct (parse_card_fields urljoin soup c1 job1 H1)
      as (d1 & l1 & h1 & u1 & g1 & -> & _ & _ & Hh1 & _ & Hu1 & _).
    destruct (parse_card_fields urljoin soup c2 job2 H2)
      as (d2 & l2 & h2 & u2 & g2 & -> & _ & _ & Hh2 & _ & Hu2 & _).
    rewrite Hsame, Hh2 in Hh1. injection Hh1 as <-.
    rewrite Hu2 in Hu1. injection Hu1 as <-. by simplify_map_eq. }
  split; [exact Hsame|]. split; [exact Hrecords|].
  intros Hjoin.
  assert (H1 : is_Ok (parse_card urljoin soup c1) = true).
  { apply parse_card_is_Ok. intros url Hurl. apply Hjoin, elem_of_app.
    by left. }
  assert (H2 : is_Ok (parse_card urljoin soup c2) = true).
  { apply parse_card_is_Ok. intros url Hurl. apply Hjoin, elem_of_app.
    by right. }
  destruct (parse_card urljoin soup c1) as [job1|] eqn:E1; [|done].
  destruct (parse_card urljoin soup c2) as [job2|] eqn:E2; [|done].
  exists job1, job2. split; [done|]. split; [done|]. by apply Hrecords.
Qed.

Lemma detail_link_is_next_apply_link_witness :
  let soup := Soup.document Samples.orphan_page in
  let cards := Soup.select sel_card soup in
  let c1 := default soup (cards !! 0) in
  let c2 := default soup (cards !! 1) in
  text_or_empty (Soup.select_one sel_title c1) = "First"
  ∧ text_or_empty (Soup.select_one sel_title c2) = "Second"
  ∧ ∃ job1 job2,
      parse_card Fixture.urljoin soup c1 = Ok job1
      ∧ parse_card Fixture.urljoin soup c2 = Ok job2
      ∧ job1 !! "Job Detail URL" = job2 !! "Job Detail URL".
Proof.
  intros soup cards c1 c2.
  split; [vm_compute; reflexivity|]. split; [vm_compute; reflexivity|].
  apply detail_link_is_next_apply_link.
  - apply (bool_decide_unpack _). vm_compute. exact I.
  - apply (bool_decide_unpack _). vm_compute. exact I.
  - intros url Hurl.
    assert (Hlinks : card_links soup c1 ++ card_links soup c2
                     = ["jobs/second.html"; "jobs/second.html"; "logo.png"])
      by (vm_compute; reflexivity).
    rewrite Hlinks in Hurl.
    repeat (apply elem_of_cons in Hurl as [->|Hurl]; [reflexivity|]).
    by apply elem_of_nil in Hurl.
Defined.

(** ** More on the enrichment phase *)

Section DetailEvents.
Variable html_parser : string -> result (list Soup.node).
Variable b : browser.
Variable P : event -> Prop.
Hypothesis P_detail : ∀ ev, detail_event ev → P ev.

Lemma Forall_P_app (evs1 evs2 : list event) :
  Forall P evs1 → Forall P evs2 → Forall P (evs1 ++ evs2).
Proof. intros. by apply Forall_app. Qed.

Lemma fetch_detail_html_attempt_emits url :
  traces (Forall P) (fetch_detail_html_attempt b url).
Proof.
  unfold fetch_detail_html_attempt. destruct (negb (Py.truthy url)).
  { apply traces_ret. constructor. }
  assert (Hone : ∀ ev, detail_event ev → Forall P [ev])
    by (intros; repeat constructor; auto).
  apply traces_bind; [apply Forall_P_app|by apply traces_emit, Hone|].
  intros _. apply traces_try_finally; [apply Forall_P_app| |].
  - apply traces_bind; [apply Forall_P_app|by apply traces_emit, Hone|].
    intros _.
    apply traces_bind; [apply Forall_P_app|by apply traces_emit, Hone|].
    intros _. apply traces_bind; [apply Forall_P_app| |].
    + intros w. exists [Content url]. split; [done|]. by apply Hone.
    + intros html. apply traces_ret. constructor.
  - apply traces_try_except; [apply Forall_P_app|by apply traces_emit, Hone|].
    intros _. apply traces_ret. constructor.
Qed.

Lemma fetch_detail_html_emits url :
  traces (Forall P) (fetch_detail_html b url).
Proof.
  unfold fetch_detail_html, retry.
  apply traces_retrying; [apply Forall_P_app| |apply fetch_detail_html_attempt_emits].
  intros n. repeat constructor. apply P_detail. simpl.
  pose proof (wait_exponential_bounds n) as [H _]. exact H.
Qed.

Lemma fetch_details_emits url :
  traces (Forall P) (fetch_details html_parser b url).
Proof.
  unfold fetch_details. destruct (Py.truthy url).
  - apply traces_try_except; [apply Forall_P_app| |].
    + apply traces_bind; [apply Forall_P_app|apply fetch_detail_html_emits|].
      intros html. apply traces_lift. constructor.
    + intros []; apply traces_ret; constructor.
  - apply traces_ret. constructor.
Qed.

Lemma enrich_job_emits job : traces (Forall P) (enrich_job html_parser b job).
Proof.
  unfold enrich_job.
  apply traces_bind; [apply Forall_P_app|apply fetch_details_emits|].
  intros details. apply traces_ret. constructor.
Qed.

Lemma enrichment_emits jobs : ∀ acc,
  traces (Forall P) (enrichment html_parser b jobs acc).
Proof.
  induction jobs as [|job rest IH]; intros acc; simpl.
  - apply traces_ret. constructor.
  - apply traces_bind; [apply Forall_P_app|apply enrich_job_emits|].
    intros row. apply IH.
Qed.
End DetailEvents.

Lemma enrich_job_world html_parser b job w :
  (enrich_job html_parser b job w).2
  = if Py.truthy (get job "Job Detail URL")
    then (fetch_detail_html b (get job "Job Detail URL") w).2
    else w.
Proof.
  unfold enrich_job, fetch_details. unfold_M.
  destruct (Py.truthy (get job "Job Detail URL")); [|done].
  destruct (fetch_detail_html b _ w) as [[html|e] w1]; simpl.
  - by destruct (parse_job_details html_parser html) as [d|[]].
  - by destruct e.
Qed.

(** X9: a record whose Job Detail URL is missing or empty costs nothing in
    the enrichment loop: no page is opened, the world is left as it was,
    and its row carries the stripped summary fields with an empty Location,
    Job Description and Job Detail URL. *)
Theorem enrich_job_without_url html_parser b job w :
  job !! "Job Detail URL" = None ∨ job !! "Job Detail URL" = Some "" →
  enrich_job html_parser b job w = (Ok (cleaned job no_details ""), w).
Proof.
  intros Hurl. unfold enrich_job, fetch_details.
  assert (Hget : get job "Job Detail URL" = "")
    by (unfold get; destruct Hurl as [-> | ->]; done).
  rewrite Hget. reflexivity.
Qed.

Lemma enrich_job_without_url_witness :
  enrich_job Fixture.html_parser (Fixture.flaky_until 100)
    (Fixture.summary "Two" "") [NewPage]
  = (Ok (cleaned (Fixture.summary "Two" "") no_details ""), [NewPage]).
Proof.
  apply enrich_job_without_url. right. reflexivity.
Defined.

(** X10: the enrichment loop only fetches details, within a budget.  All
    it does to the browser is open and close pages, navigate with the
    detail timeout, pause 100 ms, capture markup and wait 1 to 5 seconds
    between attempts; the context and the browser are never closed by it.
    It opens at most three pages per record that has a detail URL. *)
Theorem enrichment_page_budget html_parser b jobs w :
  ∃ evs,
    (enrichment html_parser b jobs [] w).2 = w ++ evs
    ∧ Forall detail_event evs
    ∧ (new_pages evs
       ≤ RETRY_ATTEMPTS
         * List.length (filter (λ job, get job "Job Detail URL" ≠ "") jobs))%nat.
Proof.
  generalize (@nil (gmap string string)) as acc. revert w.
  induction jobs as [|job rest IH]; intros w acc.
  - exists []. simpl. rewrite app_nil_r. repeat split; [constructor|].
    vm_compute. lia.
  - simpl enrichment. unfold mbind, M_bind, bind.
    pose proof (enrich_job_world html_parser b job w) as Hw.
    destruct (enrich_job_total html_parser b job w) as (details & w1 & Hjob & _).
    rewrite Hjob in Hw |- *. simpl in Hw.
    destruct (IH w1 (acc ++ [cleaned job details (get job "Job Detail URL")]))
      as (evs2 & Hrest & Hev2 & Hn2).
    rewrite filter_cons.
    destruct (Py.truthy (get job "Job Detail URL")) eqn:Hurl.
    + destruct (fetch_detail_html_emits b detail_event (λ _ H, H)
                  (get job "Job Detail URL") w) as (evs1 & Hfetch & Hev1).
      destruct (retrying_trace (fetch_detail_html_attempt b
                                  (get job "Job Detail URL"))
                  (wait_exponential 1 1 5)
                  (fetch_detail_html_attempt_trace b _) 2 1 w)
        as (evs1' & Hfetch' & Hn1 & _).
      change (retrying 2 1 (wait_exponential 1 1 5)
                (fetch_detail_html_attempt b (get job "Job Detail URL")) w)
        with (fetch_detail_html b (get job "Job Detail URL") w) in Hfetch'.
      rewrite Hfetch in Hfetch'. apply app_inv_head in Hfetch'. subst evs1'.
      rewrite Hfetch in Hw. subst w1.
      exists (evs1 ++ evs2). rewrite Hrest, app_assoc.
      split; [done|]. split; [by apply Forall_app|].
      apply truthy_true in Hurl. rewrite decide_True by done.
      rewrite new_pages_app. simpl. unfold RETRY_ATTEMPTS in *. lia.
    + subst w1. exists evs2. split; [done|]. split; [done|].
      apply truthy_false in Hurl. rewrite decide_False by (by intros ?).
      done.
Qed.

(** ** More on the pagination walker *)

Section MoreWalker.
Variable html_parser : string -> result (list Soup.node).
Variable urljoin : string -> string -> result string.
Variable b : browser.

(** A pass through the loop body whose navigation succeeds: what is read
    off the markup decides how it ends. *)
Lemma page_body_loaded st url w :
  goto_outcome b (List.length w) url = None →
  let seen := w ++ [Goto url NAV_TIMEOUT_MS; Content url] in
  match content_outcome b (S (List.length w)) url with
  | Raise e => page_body html_parser urljoin b st url w = (Raise e, seen)
  | Ok html =>
      match
        rbind (parse_jobs_from_page html_parser urljoin html) (λ jobs,
        rbind (BeautifulSoup html_parser html) (λ soup,
        rbind (next_url urljoin soup) (λ next, Ok (jobs, next))))
      with
      | Raise e => page_body html_parser urljoin b st url w = (Raise e, seen)
      | Ok (jobs, Some target) =>
          page_body html_parser urljoin b st url w
          = (Ok (Continue {| next_page_url := Some target;
                             page_index := S (page_index st);
                             all_jobs := all_jobs st ++ jobs |}),
             w ++ page_events url)
      | Ok (jobs, None) =>
          page_body html_parser urljoin b st url w
          = (Ok (Continue {| next_page_url := None;
                             page_index := page_index st;
                             all_jobs := all_jobs st ++ jobs |}),
             seen)
      end
  end.
Proof.
  intros Hgoto seen. unfold page_body.
  unfold mbind, M_bind, bind, mret, M_ret, ret, try_except, goto, emit,
    content, lift, sleep.
  rewrite Hgoto. simpl. rewrite length_app. simpl. rewrite Nat.add_1_r.
  unfold seen.
  destruct (content_outcome b (S (List.length w)) url) as [html|e].
  2: { by rewrite <- app_assoc. }
  destruct (parse_jobs_from_page html_parser urljoin html) as [jobs|e];
    simpl; [|by rewrite <- app_assoc].
  destruct (BeautifulSoup html_parser html) as [soup|e];
    simpl; [|by rewrite <- app_assoc].
  destruct (next_url urljoin soup) as [[target|]|e]; simpl;
    by rewrite <- !app_assoc.
Qed.

Lemma page_body_outcome st url w st1 w1 :
  page_body html_parser urljoin b st url w = (Ok (Continue st1), w1) →
  match next_page_url st1 with
  | Some _ => page_index st1 = S (page_index st) ∧ w1 = w ++ page_events url
  | None =>
      page_index st1 = page_index st
      ∧ w1 = w ++ [Goto url NAV_TIMEOUT_MS; Content url]
  end.
Proof.
  intros Hbody.
  destruct (goto_outcome b (List.length w) url) as [e|] eqn:Hgoto.
  { by rewrite (page_body_goto_fails _ _ _ _ _ _ e Hgoto) in Hbody. }
  pose proof (page_body_loaded st url w Hgoto) as Hloaded.
  cbv zeta in Hloaded.
  destruct (content_outcome b (S (List.length w)) url) as [html|e];
    [|by rewrite Hloaded in Hbody].
  destruct (rbind _ _) as [[jobs [target|]]|e]; rewrite Hloaded in Hbody;
    [| |done]; by injection Hbody as <- <-.
Qed.

Lemma walks_start n st w st' w' :
  walks html_parser urljoin b n st w st' w' →
  is_Some (next_page_url st') → is_Some (next_page_url st).
Proof. destruct 1; [done|]. intros _. by eexists. Qed.

End MoreWalker.

(** X11: the pagination loop ends normally when a page yields no next
    link: after [n] full passes that leave no next URL (or an empty one),
    the loop returns the variables as they stand, with no further browser
    call, provided the fuel covers the [n + 1] loop tests. *)
Theorem pagination_ends_without_next_link
  html_parser urljoin b n st0 w0 st w fuel :
  walks html_parser urljoin b n st0 w0 st w →
  next_page_url st = None ∨ next_page_url st = Some "" →
  (n < fuel)%nat →
  pagination html_parser urljoin b fuel st0 w0 = (Ok (Some st), w).
Proof.
  intros Hwalks Hend Hfuel.
  replace fuel with (n + S (fuel - S n)) by lia.
  rewrite (pagination_after_walks _ _ _ _ _ _ _ _ Hwalks). simpl.
  by destruct Hend as [-> | ->].
Qed.

Lemma pagination_ends_without_next_link_witness :
  ∃ st w,
    pagination Fixture.html_parser Fixture.urljoin Outages.none 5
      first_page [NewPage] = (Ok (Some st), w)
    ∧ next_page_url st = None
    ∧ List.length (all_jobs st) = 4
    ∧ List.length w = 6.
Proof.
  pose (m1 := page_body Fixture.html_parser Fixture.urljoin Outages.none
                first_page BASE_URL [NewPage]).
  pose (st1 := continued first_page m1).
  pose (m2 := page_body Fixture.html_parser Fixture.urljoin Outages.none
                st1 Fixture.page2 m1.2).
  pose (st2 := continued first_page m2).
  assert (H1 : m1 = (Ok (Continue st1), m1.2))
    by (apply run_continues; vm_compute; reflexivity).
  assert (H2 : m2 = (Ok (Continue st2), m2.2))
    by (apply run_continues; vm_compute; reflexivity).
  assert (Hurl : next_page_url st1 = Some Fixture.page2)
    by (vm_compute; reflexivity).
  assert (Hwalks : walks Fixture.html_parser Fixture.urljoin Outages.none 2
                     first_page [NewPage] st2 m2.2).
  { apply (walks_next _ _ _ 1 first_page BASE_URL [NewPage] st1 m1.2);
      [reflexivity|reflexivity|exact H1|].
    apply (walks_next _ _ _ 0 st1 Fixture.page2 m1.2 st2 m2.2);
      [exact Hurl|reflexivity|exact H2|constructor]. }
  assert (Hend : next_page_url st2 = None) by (vm_compute; reflexivity).
  exists st2, m2.2. split.
  - apply (pagination_ends_without_next_link _ _ _ 2 _ _ _ _ 5 Hwalks);
      [by left|lia].
  - split; [exact Hend|]. split; vm_compute; reflexivity.
Defined.

(** X12: the pagination loop loads its pages one after the other: [n]
    full passes that each found a next link add to the run exactly, page by
    page, one navigation with the list timeout, one capture of the markup
    and one pause of 200 ms, in that order, and advance the page index by
    [n]. *)
Theorem pagination_loads_pages_in_sequence
  html_parser urljoin b n st w st' w' :
  walks html_parser urljoin b n st w st' w' →
  is_Some (next_page_url st') →
  page_index st' = page_index st + n
  ∧ ∃ urls, List.length urls = n ∧ w' = w ++ flat_map page_events urls.
Proof.
  induction 1 as [|n st url w st1 w1 st2 w2 Hurl Htruthy Hbody Hwalks IH].
  - intros _. split; [lia|]. exists []. by rewrite app_nil_r.
  - intros Hsome. destruct (IH Hsome) as (Hidx & urls & Hlen & ->).
    pose proof (walks_start _ _ _ _ _ _ _ _ Hwalks Hsome) as [t Ht].
    pose proof (page_body_outcome _ _ _ _ _ _ _ _ Hbody) as Hout.
    rewrite Ht in Hout. destruct Hout as [Hidx1 ->].
    split; [lia|]. exists (url :: urls). simpl. split; [by rewrite Hlen|].
    by rewrite <- !app_assoc.
Qed.

Lemma pagination_loads_pages_in_sequence_witness :
  let m := page_body Fixture.html_parser Fixture.urljoin Outages.none
             first_page BASE_URL [NewPage] in
  page_index (continued first_page m) = 1 + 1
  ∧ ∃ urls, List.length urls = 1
            ∧ m.2 = [NewPage] ++ flat_map page_events urls.
Proof.
  intros m.
  apply (pagination_loads_pages_in_sequence Fixture.html_parser
           Fixture.urljoin Outages.none 1 first_page [NewPage]).
  - apply (walks_next _ _ _ 0 first_page BASE_URL [NewPage]
             (continued first_page m) m.2);
      [reflexivity|reflexivity| |constructor].
    apply run_continues. vm_compute. reflexivity.
  - apply (bool_decide_unpack _). vm_compute. exact I.
Defined.





(** ** The whole run *)

Section ListEvents.
Variable html_parser : string -> result (list Soup.node).
Variable urljoin : string -> string -> result string.
Variable b : browser.

Lemma page_body_emits st url :
  traces (Forall list_event) (page_body html_parser urljoin b st url).
Proof.
  intros w.
  destruct (goto_outcome b (List.length w) url) as [e|] eqn:Hgoto.
  { rewrite (page_body_goto_fails _ _ _ _ _ _ e Hgoto).
    eexists. split; [done|]. by repeat constructor. }
  pose proof (page_body_loaded html_parser urljoin b st url w Hgoto) as H.
  cbv zeta in H.
  destruct (content_outcome b (S (List.length w)) url) as [html|e].
  - destruct (rbind _ _) as [[jobs [target|]]|e]; rewrite H;
      eexists; (split; [done|]); by repeat constructor.
  - rewrite H. eexists. split; [done|]. by repeat constructor.
Qed.

Lemma pagination_emits fuel : ∀ st,
  traces (Forall list_event) (pagination html_parser urljoin b fuel st).
Proof.
  induction fuel as [|fuel IH]; intros st; simpl.
  { apply traces_ret. constructor. }
  destruct (next_page_url st) as [url|]; [|apply traces_ret; constructor].
  destruct (Py.truthy url); [|apply traces_ret; constructor].
  apply traces_bind; [by intros; apply Forall_app|apply page_body_emits|].
  intros [st'|st']; [apply IH|apply traces_ret; constructor].
Qed.
End ListEvents.

(** X14: the shape of a run of [main].  If the first page cannot be opened
    the run raises at once.  A run that returns a table has done, in this
    order: open one page; the events of the pagination loop (navigations
    with the list timeout, captures, pauses of 200 ms); the events of the
    detail fetches; then close the context and close the browser, once each
    and last. *)
Theorem main_session html_parser urljoin b fuel w :
  (∀ e, new_page_outcome b (List.length w) = Some e →
        main html_parser urljoin b fuel w = (Raise e, w ++ [NewPage]))
  ∧ (∀ df w',
       main html_parser urljoin b fuel w = (Ok (Some df), w') →
       ∃ listing details,
         w' = w ++ [NewPage] ++ listing ++ details
                ++ [CloseContext; CloseBrowser]
         ∧ Forall list_event listing
         ∧ Forall detail_event details).
Proof.
  split.
  - intros e Hnew. unfold main. unfold_M. unfold new_page, emit.
    by rewrite Hnew.
  - intros df w'. unfold main, after_pagination. unfold_M.
    unfold new_page, emit.
    destruct (new_page_outcome b (List.length w)) as [e0|]; [done|].
    destruct (pagination_emits html_parser urljoin b fuel
                {| next_page_url := Some BASE_URL; page_index := 1;
                   all_jobs := [] |} (w ++ [NewPage]))
      as (listing & Hlisting & HFl).
    destruct (pagination html_parser urljoin b fuel _ (w ++ [NewPage]))
      as [[[st|]|e1] w1]; simpl in Hlisting; subst w1; [|done|done].
    destruct (enrichment_emits html_parser b detail_event (λ _ H, H)
                (all_jobs st) [] ((w ++ [NewPage]) ++ listing))
      as (details & Hdetails & HFd).
    destruct (enrichment html_parser b (all_jobs st) [] _) as [[rows|e2] w2];
      simpl in Hdetails; subst w2; [|done].
    unfold close_context, close_browser, emit.
    destruct (close_outcome b _) as [e3|]; [done|].
    destruct (close_outcome b _) as [e4|]; [done|].
    intros [= <- <-]. exists listing, details.
    split; [by rewrite <- !app_assoc|]. done.
Qed.

Lemma main_session_witness :
  main Fixture.html_parser Fixture.urljoin Outages.no_page 5 []
  = (Raise (PlaywrightError "Browser closed"), [] ++ [NewPage]).
Proof.
  apply (proj1 (main_session Fixture.html_parser Fixture.urljoin
                  Outages.no_page 5 [])).
  reflexivity.
Defined.

(** X15: the teardown is not guarded.  Once pagination and enrichment have
    succeeded, a failure of [context.close()] makes [main] raise that
    exception without calling [browser.close()], a failure of
    [browser.close()] makes it raise that one, and the cleaned table of the
    enriched rows is returned only when both calls succeed. *)
Theorem teardown_failure_is_fatal html_parser urljoin b fuel w st w1 rows w2 :
  new_page_outcome b (List.length w) = None →
  pagination html_parser urljoin b fuel first_page (w ++ [NewPage])
  = (Ok (Some st), w1) →
  enrichment html_parser b (all_jobs st) [] w1 = (Ok rows, w2) →
  (∀ e, close_outcome b (List.length w2) = Some e →
        main html_parser urljoin b fuel w = (Raise e, w2 ++ [CloseContext]))
  ∧ (∀ e, close_outcome b (List.length w2) = None →
          close_outcome b (S (List.length w2)) = Some e →
          main html_parser urljoin b fuel w
          = (Raise e, w2 ++ [CloseContext; CloseBrowser]))
  ∧ (close_outcome b (List.length w2) = None →
     close_outcome b (S (List.length w2)) = None →
     main html_parser urljoin b fuel w
     = (Ok (Some (clean_dataframe rows)),
        w2 ++ [CloseContext; CloseBrowser])).
Proof.
  intros Hnew Hloop Hrows. unfold main, after_pagination. unfold_M.
  unfold new_page, emit. rewrite Hnew.
  unfold first_page in Hloop. rewrite Hloop, Hrows.
  unfold close_context, close_browser, emit.
  rewrite length_app. simpl. rewrite Nat.add_1_r.
  split; [by intros e ->|]. split.
  - intros e -> ->. by rewrite <- app_assoc.
  - intros -> ->. by rewrite <- app_assoc.
Qed.

Lemma teardown_failure_is_fatal_witness :
  ∃ w, main Fixture.html_parser Fixture.urljoin Outages.no_close 5 []
       = (Raise (PlaywrightError "Target closed"), w ++ [CloseContext])
       ∧ List.length (filter (λ ev, ev = NewPage) w) = 4.
Proof.
  set (b := Outages.no_close).
  pose (walked := pagination Fixture.html_parser Fixture.urljoin b 5
                    first_page ([] ++ [NewPage])).
  pose (st := default first_page (value_of None walked.1)).
  pose (enriched := enrichment Fixture.html_parser b (all_jobs st) []
                      walked.2).
  assert (Hloop : walked = (Ok (Some st), walked.2))
    by (apply run_Ok_Some; vm_compute; reflexivity).
  assert (Hrows : enriched = (Ok (value_of [] enriched.1), enriched.2))
    by (apply run_Ok; vm_compute; reflexivity).
  destruct (teardown_failure_is_fatal Fixture.html_parser Fixture.urljoin b 5
              [] st walked.2 _ enriched.2 eq_refl Hloop Hrows) as [Hfail _].
  exists enriched.2. split.
  - apply Hfail. vm_compute. reflexivity.
  - vm_compute. reflexivity.
Defined.

(** ** More on the table *)

Lemma strip_blank s : Py.strip s = "" ↔ blank s = true.
Proof.
  unfold Py.strip. rewrite lstrip_rstrip. split.
  - induction s as [|c s IH]; [done|]. simpl.
    destruct (Py.isspace c) eqn:Hc; simpl; [exact IH|].
    rewrite Hc. simpl. intros H. discriminate H.
  - induction s as [|c s IH]; [done|]. simpl.
    destruct (Py.isspace c); simpl; [exact IH|]. intros H. discriminate H.
Qed.

Lemma filled_cell s :
  (if bool_decide (strip_cell (Some s) ∈ [Some ""; None]) then Some "N/A"
   else strip_cell (Some s)) = Some (filled s).
Proof.
  change (strip_cell (Some s)) with (Some (Py.strip s)). unfold filled.
  destruct (blank s) eqn:Hblank.
  - apply strip_blank in Hblank. rewrite Hblank.
    by rewrite bool_decide_eq_true_2 by set_solver.
  - rewrite bool_decide_eq_false_2; [done|].
    intros H. apply elem_of_cons in H as [H|H].
    + injection H as H. apply strip_blank in H. congruence.
    + apply list_elem_of_singleton in H. discriminate H.
Qed.

(** X16: what lines 182 and 183 make of a text cell.  The table keeps its
    rows and every row its length, and a cell that holds a text keeps its
    place: a text of whitespace only becomes the sentinel, any other text
    becomes its stripped form.  So a text cell ends as N/A exactly when it
    was blank or was N/A already, up to surrounding whitespace.  (Cells
    without a value are left aside here: the table [main] builds has
    none.) *)
Theorem strip_and_fill_cellwise (df : DataFrame) i j s :
  (df !! i) ≫= (λ row, row !! j) = Some (Some s) →
  (strip_and_fill df !! i) ≫= (λ row, row !! j) = Some (Some (filled s))
  ∧ map List.length (strip_and_fill df) = map List.length df
  ∧ (filled s = "N/A" ↔ blank s = true ∨ Py.strip s = "N/A").
Proof.
  intros Hcell. split; [|split].
  - rewrite strip_and_fill_cells.
    change (map ?f ?l) with (f <$> l). rewrite list_lookup_fmap.
    destruct (df !! i) as [row|]; [|done]. simpl in *.
    change (map ?f ?l) with (f <$> l). rewrite list_lookup_fmap, Hcell.
    simpl. f_equal. apply (filled_cell s).
  - rewrite strip_and_fill_cells, map_map. apply map_ext. intros row.
    by rewrite length_map.
  - unfold filled. destruct (blank s); [naive_solver|].
    split; [by right|]. by intros [ ? | ? ].
Qed.

Lemma strip_and_fill_cellwise_witness :
  let df := [ Fixture.row " One" "  "; Fixture.row "Two " " N/A " ] in
  (strip_and_fill df !! 0) ≫= (λ row, row !! 2) = Some (Some "N/A")
  ∧ (strip_and_fill df !! 1) ≫= (λ row, row !! 0) = Some (Some "Two").
Proof.
  intros df. split.
  - apply (proj1 (strip_and_fill_cellwise df 0 2 "  " eq_refl)).
  - apply (proj1 (strip_and_fill_cellwise df 1 0 "Two " eq_refl)).
Defined.

(** ** The styling of the workbook *)

Lemma style_row_rows r ws :
  Xl.rows (style_row r ws)
  = alter (map (data_style r)) (r - 1) (Xl.rows ws).
Proof.
  unfold style_row, Xl.for_row, Xl.with_rows.
  destruct (r mod 2 =? 0)%nat eqn:Hr; simpl.
  - rewrite list_alter_alter_eq. apply list_alter_ext; [|done].
    intros row _. simpl. rewrite map_map. apply map_ext. intros c.
    unfold data_style, shows_sentinel. rewrite Hr. simpl.
    by destruct (String.eqb _ _).
  - apply list_alter_ext; [|done]. intros row _. apply map_ext. intros c.
    unfold data_style, shows_sentinel. rewrite Hr.
    by destruct (String.eqb _ _).
Qed.

Lemma style_rows_lookup n : ∀ a ws i,
  Xl.rows (foldl (λ ws r_idx, style_row r_idx ws) ws (seq (S a) n)) !! i
  = if decide (a ≤ i < a + n)%nat
    then map (data_style (S i)) <$> Xl.rows ws !! i
    else Xl.rows ws !! i.
Proof.
  induction n as [|n IH]; intros a ws i; simpl.
  { by rewrite decide_False by lia. }
  rewrite IH, style_row_rows. simpl. rewrite Nat.sub_0_r.
  destruct (decide (i = a)) as [->|Hne].
  - rewrite decide_False by lia. rewrite decide_True by lia.
    rewrite list_lookup_alter, decide_True by done. done.
  - rewrite list_lookup_alter_ne by done.
    repeat case_decide; first [done|lia].
Qed.

Lemma styled_rows ws :
  Xl.rows (style_data_rows (style_header ws))
  = imap (λ i, map (styled (S i))) (Xl.rows ws).
Proof.
  apply list_eq. intros i. unfold style_data_rows.
  rewrite style_rows_lookup, list_lookup_imap.
  unfold Xl.max_row, style_header, Xl.for_row, Xl.with_rows. simpl.
  rewrite length_alter.
  destruct i as [|i].
  - rewrite decide_False by lia.
    rewrite list_lookup_alter, decide_True by done.
    destruct (Xl.rows ws !! 0) as [row|]; [|done]. simpl. f_equal.
  - rewrite list_lookup_alter_ne by done.
    destruct (Xl.rows ws !! S i) as [row|] eqn:Hrow.
    + apply lookup_lt_Some in Hrow. rewrite decide_True by lia. done.
    + by destruct (decide _).
Qed.

Lemma styled_keeps ws :
  Xl.column_dimensions (style_data_rows (style_header ws))
  = Xl.column_dimensions ws.
Proof.
  unfold style_data_rows.
  generalize (seq 2 (Xl.max_row (style_header ws) - 1)) as rs. intros rs.
  change (Xl.column_dimensions ws)
    with (Xl.column_dimensions (style_header ws)).
  generalize (style_header ws) as w. induction rs as [|r rs IH]; intros w;
    simpl; [done|].
  rewrite IH. unfold style_row, Xl.for_row, Xl.with_rows.
  by destruct (r mod 2 =? 0)%nat.
Qed.

Section Widths.
Variable get_column_letter : nat -> string.

Lemma auto_fit_rows ws :
  Xl.rows (auto_fit get_column_letter ws) = Xl.rows ws.
Proof.
  unfold auto_fit. generalize (seq 1 (Xl.max_column ws)) as cs. intros cs.
  revert ws. induction cs as [|c cs IH]; intros ws; simpl; [done|].
  by rewrite IH.
Qed.

End Widths.

Lemma alter_below {A : Type} (rs tail : list (list A)) k g :
  alter g (List.length rs + k) (Xl.pad (List.length rs + S k) [] (rs ++ tail))
  = rs ++ alter g k (Xl.pad (S k) [] tail).
Proof.
  unfold Xl.pad. rewrite length_app.
  replace (List.length rs + S k - (List.length rs + List.length tail))
    with (S k - List.length tail) by lia.
  rewrite <- app_assoc. apply alter_app_r.
Qed.

Lemma add_footer_rows timestamp ws :
  Xl.rows ws ≠ [] →
  Xl.rows (add_footer timestamp ws)
  = Xl.rows ws
    ++ [ []; [footer_cell SOURCE_NOTE];
         [footer_cell ("Generated on: " +:+ timestamp)] ].
Proof.
  intros Hne. unfold add_footer, Xl.at_cell, Xl.with_rows, Xl.max_row. simpl.
  set (rs := Xl.rows ws) in *.
  assert (Hn : (1 ≤ List.length rs)%nat) by (destruct rs; simpl; [done|lia]).
  replace (Nat.max 1 (List.length rs) + 2 - 1) with (List.length rs + 1)
    by lia.
  replace (Nat.max 1 (List.length rs) + 2 + 1 - 1) with (List.length rs + 2)
    by lia.
  replace (Nat.max 1 (List.length rs) + 2 + 1) with (List.length rs + 3)
    by lia.
  replace (Nat.max 1 (List.length rs) + 2) with (List.length rs + 2) by lia.
  pose proof (alter_below rs [] 1) as Hfirst. rewrite app_nil_r in Hfirst.
  rewrite Hfirst. simpl.
  rewrite (alter_below rs _ 2). simpl.
  rewrite (alter_below rs _ 1). simpl.
  rewrite (alter_below rs _ 2). simpl.
  reflexivity.
Qed.

Lemma styled_value r c : Xl.value (styled r c) = Xl.value c.
Proof. unfold styled. by destruct (r =? 1)%nat. Qed.

Lemma imap_map_lengths (f : nat -> Xl.cell -> Xl.cell) rs :
  List.length <$> imap (λ i, map (f i)) rs = List.length <$> rs.
Proof.
  revert f. induction rs as [|row rs IH]; intros f; [done|].
  rewrite imap_cons, !fmap_cons, length_map. f_equal. apply (IH (f ∘ S)).
Qed.

Lemma imap_map_values (f : nat -> Xl.cell -> Xl.cell) rs :
  (∀ i c, Xl.value (f i c) = Xl.value c) →
  map (map Xl.value) (imap (λ i, map (f i)) rs) = map (map Xl.value) rs.
Proof.
  intros Hf. revert f Hf. induction rs as [|row rs IH]; intros f Hf; [done|].
  rewrite imap_cons. simpl. f_equal.
  - rewrite map_map. apply map_ext. intros c. apply Hf.
  - apply (IH (f ∘ S)). intros i c. apply Hf.
Qed.

Lemma imap_map_column (f : nat -> Xl.cell -> Xl.cell) rs j :
  (∀ i c, Xl.value (f i c) = Xl.value c) →
  text_length <$> omap (λ row, row !! j) (imap (λ i, map (f i)) rs)
  = text_length <$> omap (λ row : list Xl.cell, row !! j) rs.
Proof.
  intros Hf. revert f Hf. induction rs as [|row rs IH]; intros f Hf; [done|].
  rewrite imap_cons. simpl.
  change (map (f 0) row) with (f 0 <$> row). rewrite list_lookup_fmap.
  destruct (row !! j) as [c|]; simpl.
  - f_equal.
    + unfold text_length. by rewrite Hf.
    + apply (IH (f ∘ S)). intros i c'. apply Hf.
  - apply (IH (f ∘ S)). intros i c'. apply Hf.
Qed.

Lemma max_length_from col : ∀ m,
  foldl (λ max_length cell,
           let v := match Xl.value cell with Some s => s | None => "" end in
           if (max_length <? String.length v)%nat then String.length v
           else max_length) m col
  = Nat.max m (max_list (text_length <$> col)).
Proof.
  induction col as [|c col IH]; intros m; [simpl; lia|].
  rewrite fmap_cons. cbn [foldl max_list_with id]. rewrite IH.
  unfold text_length at 2.
  destruct (Xl.value c) as [s|]; cbv zeta.
  - destruct (Nat.ltb_spec m (String.length s)); lia.
  - change (String.length "") with 0%nat. destruct (Nat.ltb_spec m 0); lia.
Qed.

Lemma max_length_longest col :
  max_length col = max_list (text_length <$> col).
Proof. unfold max_length. rewrite max_length_from. lia. Qed.

Lemma column_rows c ws ws' :
  Xl.rows ws = Xl.rows ws' → Xl.column c ws = Xl.column c ws'.
Proof. unfold Xl.column. by intros ->. Qed.

Section MoreWidths.
Variable get_column_letter : nat -> string.

Lemma auto_fit_widths cs : ∀ ws,
  let fitted :=
    foldl (λ ws c,
             Xl.set_width (get_column_letter c)
               (Nat.min (max_length (Xl.column c ws) + 2) 80) ws) ws cs in
  Xl.rows fitted = Xl.rows ws
  ∧ (∀ c, c ∈ cs →
          (∀ c', c' ∈ cs → get_column_letter c' = get_column_letter c →
                 c' = c) →
          Xl.column_dimensions fitted !! get_column_letter c
          = Some (Nat.min (max_length (Xl.column c ws) + 2) 80))
  ∧ (∀ letter, (∀ c, c ∈ cs → get_column_letter c ≠ letter) →
               Xl.column_dimensions fitted !! letter
               = Xl.column_dimensions ws !! letter).
Proof.
  induction cs as [|x cs IH] using rev_ind; intros ws; simpl.
  { split; [done|]. split; [|done]. intros c Hc. by apply elem_of_nil in Hc. }
  rewrite foldl_app. simpl. destruct (IH ws) as (Hrows & Hin & Hout).
  split; [exact Hrows|]. split.
  - intros c Hc Hinj.
    destruct (decide (get_column_letter x = get_column_letter c)) as [Heq|Hne].
    + assert (x = c) as -> by (apply Hinj; [apply elem_of_app; right;
                                             by apply list_elem_of_singleton|done]).
      rewrite lookup_insert_eq. by rewrite (column_rows c _ ws Hrows).
    + rewrite lookup_insert_ne by done.
      apply elem_of_app in Hc as [Hc|Hc].
      2: { apply list_elem_of_singleton in Hc. by subst. }
      apply Hin; [done|]. intros c' Hc'. apply Hinj. apply elem_of_app.
      by left.
  - intros letter Hletter. rewrite lookup_insert_ne.
    + apply Hout. intros c Hc. apply Hletter. apply elem_of_app. by left.
    + apply Hletter. apply elem_of_app. right. by apply list_elem_of_singleton.
Qed.
End MoreWidths.

Lemma style_excel_rows get_column_letter dimensions timestamp ws :
  Xl.rows ws ≠ [] →
  Xl.rows (style_excel get_column_letter dimensions timestamp ws)
  = imap (λ i, map (styled (S i))) (Xl.rows ws)
    ++ [ []; [footer_cell SOURCE_NOTE];
         [footer_cell ("Generated on: " +:+ timestamp)] ].
Proof.
  intros Hne. unfold style_excel. rewrite add_footer_rows; simpl.
  - by rewrite auto_fit_rows, styled_rows.
  - rewrite auto_fit_rows, styled_rows. by destruct (Xl.rows ws).
Qed.

Lemma jobs_is_table : is_table (Xl.rows Sheets.jobs).
Proof.
  eexists _, _. split; [reflexivity|]. split; [done|]. repeat constructor.
Qed.

(** X17: what [style_excel] does to each cell of the table it loads.  The
    value is never changed.  A cell of row 1 gets the header fill, the bold
    white header font and the centred alignment, and keeps its border.  A
    cell of a later row gets the medium border on its four sides and keeps
    its alignment; its fill becomes the alternate fill when the row number
    is even (so from the first data row on, every second row) and is kept
    otherwise; its font becomes the grey italic font exactly when its text
    is N/A up to surrounding whitespace, and is kept otherwise. *)
Theorem style_excel_cells get_column_letter dimensions timestamp ws r c old :
  is_table (Xl.rows ws) →
  cell_at (Xl.rows ws) r c = Some old →
  ∃ new,
    cell_at (Xl.rows (style_excel get_column_letter dimensions timestamp ws))
      r c = Some new
    ∧ Xl.value new = Xl.value old
    ∧ (r = 1%nat →
       Xl.fill new = header_fill ∧ Xl.font new = header_font
       ∧ Xl.alignment new = centered ∧ Xl.border new = Xl.border old)
    ∧ (r ≠ 1%nat →
       Xl.fill new = (if (r mod 2 =? 0)%nat then alt_fill else Xl.fill old)
       ∧ Xl.font new = (if shows_sentinel old then grey_font else Xl.font old)
       ∧ Xl.alignment new = Xl.alignment old
       ∧ Xl.border new = border).
Proof.
  intros _ Hold. destruct r as [|i]; [done|]. destruct c as [|j]; [done|].
  simpl in Hold. destruct (Xl.rows ws !! i) as [row|] eqn:Hrow; [|done].
  simpl in Hold. exists (styled (S i) old).
  assert (Hne : Xl.rows ws ≠ []) by (intros H; by rewrite H in Hrow).
  rewrite (style_excel_rows _ _ _ _ Hne). simpl.
  rewrite lookup_app_l
    by (rewrite length_imap; by apply lookup_lt_Some in Hrow).
  rewrite list_lookup_imap, Hrow. simpl.
  change (map ?f row) with (f <$> row). rewrite list_lookup_fmap, Hold.
  split; [done|]. split; [apply styled_value|]. unfold styled. split.
  - intros [= ->]. done.
  - intros Hi. destruct (Nat.eqb_spec (S i) 1); [done|]. done.
Qed.

Lemma style_excel_cells_witness :
  ∃ new,
    cell_at (Xl.rows (style_excel Sheets.get_column_letter Sheets.dimensions
                        "2025-01-01 12:00:00" Sheets.jobs)) 2 2 = Some new
    ∧ Xl.value new = Some "N/A"
    ∧ Xl.fill new = alt_fill
    ∧ Xl.font new = grey_font.
Proof.
  destruct (style_excel_cells Sheets.get_column_letter Sheets.dimensions
              "2025-01-01 12:00:00" Sheets.jobs 2 2 (Sheets.text "N/A")
              jobs_is_table eq_refl) as (new & Hnew & Hvalue & _ & Hdata).
  destruct (Hdata ltac:(discriminate)) as (Hfill & Hfont & _).
  exists new. split; [exact Hnew|]. split; [exact Hvalue|].
  split; [exact Hfill|exact Hfont].
Defined.

(** X18: the width [style_excel] gives to a column.  For every column of
    the loaded table whose letter is not shared with another column, the
    width is the length of the longest text of the column, the header
    included and a cell without value counting for nothing, plus 2, and at
    most 80: so it lies between 2 and 80, and every text of the column of
    at most 78 characters is 2 short of it or more.  The footer, written
    afterwards, does not count.  The width of a letter that is no column's
    is left as loaded. *)
Theorem style_excel_column_width get_column_letter dimensions timestamp ws :
  is_table (Xl.rows ws) →
  let saved := style_excel get_column_letter dimensions timestamp ws in
  (∀ c,
     (1 ≤ c ≤ Xl.max_column ws)%nat →
     (∀ c', (1 ≤ c' ≤ Xl.max_column ws)%nat →
            get_column_letter c' = get_column_letter c → c' = c) →
     ∃ width,
       Xl.column_dimensions saved !! get_column_letter c = Some width
       ∧ width = Nat.min (max_list (text_length <$> Xl.column c ws) + 2) 80
       ∧ (2 ≤ width ≤ 80)%nat
       ∧ ∀ cell, cell ∈ Xl.column c ws →
                 (text_length cell + 2 ≤ width)%nat ∨ width = 80%nat)
  ∧ (∀ letter,
       (∀ c, (1 ≤ c ≤ Xl.max_column ws)%nat → get_column_letter c ≠ letter) →
       Xl.column_dimensions saved !! letter
       = Xl.column_dimensions ws !! letter).
Proof.
  intros _ saved.
  set (ws1 := style_data_rows (style_header ws)).
  assert (Hrows : Xl.rows ws1 = imap (λ i, map (styled (S i))) (Xl.rows ws))
    by apply styled_rows.
  assert (Hcols : Xl.max_column ws1 = Xl.max_column ws).
  { unfold Xl.max_column. by rewrite Hrows, imap_map_lengths. }
  assert (Hsaved : Xl.column_dimensions saved
                   = Xl.column_dimensions (auto_fit get_column_letter ws1))
    by reflexivity.
  rewrite Hsaved. unfold auto_fit. rewrite Hcols.
  destruct (auto_fit_widths get_column_letter (seq 1 (Xl.max_column ws)) ws1)
    as (_ & Hin & Hout).
  split.
  - intros c Hc Hinj. eexists. split; [|split; [reflexivity|]].
    + rewrite Hin.
      * rewrite max_length_longest. unfold Xl.column. rewrite Hrows.
        rewrite imap_map_column by (intros; apply styled_value). done.
      * apply elem_of_seq. lia.
      * intros c' Hc'. apply Hinj. apply elem_of_seq in Hc'. lia.
    + split; [lia|]. intros cell Hcell.
      assert (text_length cell ≤ max_list (text_length <$> Xl.column c ws))%nat.
      { apply max_list_elem_of_le, list_elem_of_fmap. by exists cell. }
      lia.
  - intros letter Hletter. rewrite Hout.
    + unfold ws1. by rewrite styled_keeps.
    + intros c Hc. apply Hletter. apply elem_of_seq in Hc. lia.
Qed.

Lemma style_excel_column_width_witness :
  Xl.column_dimensions
    (style_excel Sheets.get_column_letter Sheets.dimensions
       "2025-01-01 12:00:00" Sheets.jobs) !! "A" = Some 17%nat.
Proof.
  destruct (proj1 (style_excel_column_width Sheets.get_column_letter
                     Sheets.dimensions "2025-01-01 12:00:00" Sheets.jobs
                     jobs_is_table) 1%nat)
    as (width & Hwidth & Heq & _).
  - vm_compute. lia.
  - intros c' Hc' Hletter.
    assert (Hcols : Xl.max_column Sheets.jobs = 2%nat) by reflexivity.
    rewrite Hcols in Hc'.
    assert (c' = 1 ∨ c' = 2)%nat as [->| ->] by lia; [done|].
    discriminate Hletter.
  - assert (Hlongest : Nat.min (max_list (text_length
                                            <$> Xl.column 1 Sheets.jobs) + 2) 80
                       = 17%nat) by reflexivity.
    rewrite Hlongest in Heq. subst width. exact Hwidth.
Defined.

(** X19: where [style_excel] puts its footer, and what it fixes.  On a
    loaded table the saved sheet has the rows of the table, with their
    values and as many cells each, then one row without cells, then two
    rows of one cell each in the first column, both in the grey italic
    font: the source note, and the line that gives the time.  The first
    row is frozen (the panes are frozen at A2), and the filter is set on
    the range the sheet had before the footer was written, so the footer
    is outside of it. *)
Theorem style_excel_footer get_column_letter dimensions timestamp ws :
  is_table (Xl.rows ws) →
  let saved := style_excel get_column_letter dimensions timestamp ws in
  let n := List.length (Xl.rows ws) in
  map (map Xl.value) (take n (Xl.rows saved)) = map (map Xl.value) (Xl.rows ws)
  ∧ drop n (Xl.rows saved)
    = [ []; [footer_cell SOURCE_NOTE];
        [footer_cell ("Generated on: " +:+ timestamp)] ]
  ∧ Xl.freeze_panes saved = Some "A2"
  ∧ Xl.auto_filter saved = Some (dimensions (take n (Xl.rows saved))).
Proof.
  intros (header & data & Hrows & _ & _) saved n.
  assert (Hne : Xl.rows ws ≠ []) by (by rewrite Hrows).
  assert (Hn : n = List.length (imap (λ i, map (styled (S i))) (Xl.rows ws)))
    by (by rewrite length_imap).
  assert (Hsaved : Xl.rows saved
                   = imap (λ i, map (styled (S i))) (Xl.rows ws)
                     ++ [ []; [footer_cell SOURCE_NOTE];
                          [footer_cell ("Generated on: " +:+ timestamp)] ])
    by (by apply style_excel_rows).
  assert (Htake : take n (Xl.rows saved)
                  = imap (λ i, map (styled (S i))) (Xl.rows ws))
    by (rewrite Hsaved, Hn; apply take_app_length).
  split; [|split; [|split]].
  - rewrite Htake. apply imap_map_values. intros. apply styled_value.
  - rewrite Hsaved, Hn. apply drop_app_length.
  - reflexivity.
  - rewrite Htake.
    unfold saved, style_excel, add_footer, Xl.at_cell, Xl.with_rows. simpl.
    by rewrite auto_fit_rows, styled_rows.
Qed.

Lemma style_excel_footer_witness :
  let saved := style_excel Sheets.get_column_letter Sheets.dimensions
                 "2025-01-01 12:00:00" Sheets.jobs in
  drop 4 (Xl.rows saved)
  = [ []; [footer_cell SOURCE_NOTE];
      [footer_cell "Generated on: 2025-01-01 12:00:00"] ]
  ∧ Xl.auto_filter saved = Some "A1:B4".
Proof.
  intros saved.
  destruct (style_excel_footer Sheets.get_column_letter Sheets.dimensions
              "2025-01-01 12:00:00" Sheets.jobs jobs_is_table)
    as (_ & Hfooter & _ & Hfilter).
  split; [exact Hfooter|]. fold saved in Hfilter. rewrite Hfilter.
  vm_compute. reflexivity.
Defined.

(** ** More on the table: what the cleaning merges *)

Lemma strip_and_fill_filled df :
  Forall (Forall is_Some) df →
  strip_and_fill df = map (map (option_map filled)) df.
Proof.
  intros Htext. rewrite strip_and_fill_cells.
  induction Htext as [|row df Hrow _ IH]; [done|]. simpl. f_equal; [|exact IH].
  induction Hrow as [|v row [s ->] _ IHrow]; [done|]. simpl.
  f_equal; [apply filled_cell|exact IHrow].
Qed.

(** X21: the cleaned table is the filled rows, each once.  On a table
    whose cells all hold a text, as the table [main] builds does, a row is
    in the result of lines 182 to 184 exactly when it is the filled form
    of a row of the table (every text stripped, a blank text replaced by
    N/A); no row occurs twice and no row is added.  So two rows that
    differ only by surrounding whitespace, or by a blank cell against an
    N/A cell, are merged into one, and rows that still differ after the
    filling are all kept. *)
Theorem normalize_merges_filled_rows (df : DataFrame) :
  Forall (Forall is_Some) df →
  NoDup (normalize df)
  ∧ (∀ row, row ∈ normalize df ↔ ∃ r, r ∈ df ∧ row = map (option_map filled) r)
  ∧ (List.length (normalize df) ≤ List.length df)%nat.
Proof.
  intros Htext. unfold normalize. rewrite (strip_and_fill_filled df Htext).
  assert (Hnd : NoDup (drop_duplicates (map (map (option_map filled)) df)))
    by apply (NoDup_dedup_after _ []).
  assert (Hin : ∀ row, row ∈ drop_duplicates (map (map (option_map filled)) df)
                       ↔ ∃ r, r ∈ df ∧ row = map (option_map filled) r).
  { intros row.
    rewrite (elem_of_dedup_after (map (map (option_map filled)) df) [] row).
    change (map (map (option_map filled)) df) with (map (option_map filled) <$> df).
    rewrite list_elem_of_fmap. split.
    - intros [(r & -> & Hr) _]. by exists r.
    - intros (r & Hr & ->). split; [by exists r|set_solver]. }
  split; [exact Hnd|]. split; [exact Hin|].
  pose proof (sublist_dedup_after (map (map (option_map filled)) df) []) as Hsub.
  apply sublist_length in Hsub. by rewrite length_map in Hsub.
Qed.

Lemma normalize_merges_filled_rows_witness :
  let df := [ Fixture.row " One" ""; Fixture.row "One" "N/A";
              Fixture.row "Two" "Remote" ] in
  normalize df = [ Fixture.row "One" "N/A"; Fixture.row "Two" "Remote" ]
  ∧ NoDup (normalize df)
  ∧ map (option_map filled) (Fixture.row " One" "") ∈ normalize df.
Proof.
  intros df. split; [vm_compute; reflexivity|].
  assert (Htext : Forall (Forall is_Some) df)
    by (apply (bool_decide_unpack _); vm_compute; exact I).
  destruct (normalize_merges_filled_rows df Htext) as (Hnd & Hin & _).
  split; [exact Hnd|]. apply Hin. exists (Fixture.row " One" "").
  split; [|reflexivity]. apply elem_of_cons. by left.
Defined.
